(** * RBTools: the SCM client base class and its patch application

    A shallow embedding of [rbtools/clients/base/scmclient.py]
    ([BaseSCMClient]): the set-up life cycle ([setup],
    [has_dependencies]), the strip-count helpers ([_get_p_number],
    [_strip_p_num_slashes]) and [apply_patch]; and of the Perforce
    revision resolver and diff synthesizer that
    [rbtools/clients/tests/test_p4.py] exercises.

    Python [str] values are Rocq [string]s, Python [int]s are [Z],
    exceptions are values of an error type, and the collaborators a
    method calls (the [execute] helper, the file system, the hooks a
    subclass overrides) are fields of a record passed to the model. *)

(** Further on, [get_commit_message] of the same class, the
    [_normalize_diff] helper of the Perforce tests and the functions
    [execute], [get_api], [get_review_request] and
    [close_review_request] of [rbtools/hooks/common.py] are embedded
    in the same way. *)

From Stdlib Require Import ZArith List Bool Ascii String Lia.
From Stdlib Require Import DecimalString.
Import ListNotations.

Local Open Scope string_scope.
Local Open Scope Z_scope.

(** ** Python string primitives *)

Module PyStr.

(** [s.startswith(p)] *)
Fixpoint startswith (s p : string) {struct p} : bool :=
  match p with
  | EmptyString => true
  | String c p' =>
      match s with
      | EmptyString => false
      | String d s' => Ascii.eqb c d && startswith s' p'
      end
  end.

(** [s.count(c)] for a one-character needle. *)
Fixpoint count (s : string) (c : ascii) : nat :=
  match s with
  | EmptyString => O
  | String d s' => (if Ascii.eqb d c then 1 else 0) + count s' c
  end.

(** Truth value of a [str]: the empty string is false. *)
Definition truthy (s : string) : bool :=
  match s with
  | EmptyString => false
  | String _ _ => true
  end.

(** [s.split(c)] for a one-character separator: the pieces between the
    separators, empty pieces included. *)
Fixpoint split (s : string) (c : ascii) : list string :=
  match s with
  | EmptyString => [EmptyString]
  | String d s' =>
      if Ascii.eqb d c then EmptyString :: split s' c
      else match split s' c with
           | [] => [String d EmptyString]
           | w :: ws => String d w :: ws
           end
  end.

(** [''.join(l)] *)
Fixpoint join (l : list string) : string :=
  match l with
  | [] => EmptyString
  | s :: l' => s ++ join l'
  end.

(** [sub in s] *)
Fixpoint contains (s sub : string) : bool :=
  startswith s sub ||
  match s with
  | EmptyString => false
  | String _ s' => contains s' sub
  end.

(** [s.splitlines(True)] for text whose lines end in a line feed. *)
Fixpoint splitlines (s : string) : list string :=
  match s with
  | EmptyString => []
  | String c s' =>
      if Ascii.eqb c (ascii_of_nat 10) then String c EmptyString :: splitlines s'
      else match splitlines s' with
           | [] => [String c EmptyString]
           | l :: ls => String c l :: ls
           end
  end.

(** ['%d' % z] *)
Definition format_d (z : Z) : string :=
  NilEmpty.string_of_int (Z.to_int z).

End PyStr.

(** ** The fragment of [re] that [_strip_p_num_slashes] uses

    A pattern is a sequence of character classes, each taken once,
    zero or more times ([*]) or one or more times ([+]).  Matching is
    Python's: leftmost, greedy, with backtracking. *)

Module Re.

Inductive quant : Type := One | Star | Plus.

Definition item : Type := ((ascii -> bool) * quant)%type.
Definition pattern : Type := list item.

(** Greedy repetition of class [c] followed by continuation [k]: one
    more character is tried first, the continuation on failure. *)
Fixpoint star (c : ascii -> bool) (k : string -> option string)
    (s : string) : option string :=
  match s with
  | String x s' =>
      if c x then
        match star c k s' with
        | Some r => Some r
        | None => k s
        end
      else k s
  | EmptyString => k s
  end.

(** [pattern.match(s)]: the text left after the match at the start of
    [s], or [None]. *)
Fixpoint match_here (p : pattern) (s : string) : option string :=
  match p with
  | [] => Some s
  | (c, One) :: p' =>
      match s with
      | String x s' => if c x then match_here p' s' else None
      | EmptyString => None
      end
  | (c, Star) :: p' => star c (match_here p') s
  | (c, Plus) :: p' =>
      match s with
      | String x s' => if c x then star c (match_here p') s' else None
      | EmptyString => None
      end
  end.

Definition dec (limit : option nat) : option nat :=
  match limit with
  | Some n => Some (Nat.pred n)
  | None => None
  end.

(** The scan of [pattern.sub(repl, s, count)].  [limit] is the number
    of replacements still allowed ([None]: no bound); [skip] is the
    number of characters of [s] that belong to the match being
    replaced.  Outside a match, a position where the pattern matches
    is replaced by [repl] and the scan goes on after the match; an
    empty match is replaced and the character copied; without a
    match the character is copied. *)
Fixpoint sub_scan (p : pattern) (repl : string) (limit : option nat)
    (skip : nat) (s : string) {struct s} : string :=
  match skip with
  | S k =>
      match s with
      | String _ s' => sub_scan p repl limit k s'
      | EmptyString => EmptyString
      end
  | O =>
      match limit with
      | Some O => s
      | _ =>
          match match_here p s with
          | Some rest =>
              match (String.length s - String.length rest)%nat with
              | O =>
                  repl ++
                  match s with
                  | String x s' => String x (sub_scan p repl (dec limit) O s')
                  | EmptyString => EmptyString
                  end
              | S k =>
                  repl ++
                  match s with
                  | String _ s' => sub_scan p repl (dec limit) k s'
                  | EmptyString => EmptyString
                  end
              end
          | None =>
              match s with
              | String x s' => String x (sub_scan p repl limit O s')
              | EmptyString => EmptyString
              end
          end
      end
  end.

(** [pattern.sub(repl, s, count)]; a [count] of 0 replaces every
    match. *)
Definition sub (p : pattern) (repl s : string) (count : Z) : string :=
  sub_scan p repl (if count =? 0 then None else Some (Z.to_nat count)) O s.

End Re.

(** ** [BaseSCMClient]: the strip-count helpers *)

Definition slash : ascii := "/"%char.

Definition is_slash (c : ascii) : bool := Ascii.eqb c slash.
Definition not_slash (c : ascii) : bool := negb (Ascii.eqb c slash).

(** [_get_p_number(base_path, base_dir)] *)
Definition _get_p_number (base_path base_dir : string) : Z :=
  if PyStr.truthy base_path && PyStr.startswith base_dir base_path
  then Z.of_nat (PyStr.count base_path slash) + 1
  else -1.

(** [re.compile(r'[^/]*/+')] *)
Definition strip_regex : Re.pattern :=
  [(not_slash, Re.Star); (is_slash, Re.Plus)].

(** *** Path segments, in the words of [patch -p]

    A leading segment of a file name is a run of characters other than
    [/] (possibly empty) with the whole run of [/] that follows it.  A
    name is its leading segments followed by a final component without
    [/]. *)

Fixpoint drop_slashes (s : string) : string :=
  match s with
  | String c s' => if is_slash c then drop_slashes s' else s
  | EmptyString => s
  end.

(** One strip: the name without its first segment, [None] when it has
    no [/]. *)
Fixpoint strip_one (s : string) : option string :=
  match s with
  | EmptyString => None
  | String c s' => if is_slash c then Some (drop_slashes s') else strip_one s'
  end.

(** [n] strips, as far as there are segments. *)
Fixpoint strip_n (n : nat) (s : string) : string :=
  match n with
  | O => s
  | S k =>
      match strip_one s with
      | Some r => strip_n k r
      | None => s
      end
  end.

Definition starts_with_slash (s : string) : bool :=
  match s with
  | String c _ => is_slash c
  | EmptyString => false
  end.

(** The leading segments of a name and its final component. *)
Fixpoint decompose (s : string) : list string * string :=
  match s with
  | EmptyString => ([], EmptyString)
  | String c s' =>
      let (segs, final) := decompose s' in
      if is_slash c && negb (starts_with_slash s')
      then (String c EmptyString :: segs, final)
      else match segs with
           | [] => ([], String c final)
           | g :: gs => (String c g :: gs, final)
           end
  end.

Definition path_segments (s : string) : list string := fst (decompose s).
Definition final_component (s : string) : string := snd (decompose s).

(** A name without its first [n] segments (without all of them when it
    has fewer). *)
Definition strip_leading (n : nat) (f : string) : string :=
  PyStr.join (skipn n (path_segments f)) ++ final_component f.

Definition slash_free (s : string) : Prop := PyStr.count s slash = O.

Fixpoint all_slashes (s : string) : bool :=
  match s with
  | EmptyString => true
  | String c s' => is_slash c && all_slashes s'
  end.

(** [g] is a segment: a name without [/] and a non-empty run of [/]. *)
Definition Segment (g : string) : Prop :=
  exists name run,
    g = name ++ run /\ slash_free name /\
    run <> EmptyString /\ all_slashes run = true.

(** [r] is [f] without exactly [n] leading segments. *)
Definition removes_exactly (n : nat) (f r : string) : Prop :=
  exists removed,
    List.length removed = n /\ Forall Segment removed /\
    f = PyStr.join removed ++ r.

(** [segs] and [final] split a name the way [patch] reads it: every
    element is a segment whose run of [/] is whole (what follows does
    not start with [/]) and the final component has no [/]. *)
Fixpoint well_split (segs : list string) (final : string) : Prop :=
  match segs with
  | [] => slash_free final
  | g :: gs =>
      Segment g /\ starts_with_slash (PyStr.join gs ++ final) = false /\
      well_split gs final
  end.

(** ** [BaseSCMClient.apply_patch] *)

(** The values the [p] argument takes: [None] (the default), a [str]
    (the documented type, as the command line delivers it) or an
    [int]. *)
Inductive pyval : Type :=
| PNone
| PStr (s : string)
| PInt (z : Z).

(** Truth value of [p] and the expression [p or d]. *)
Definition py_truthy (v : pyval) : bool :=
  match v with
  | PNone => false
  | PStr s => PyStr.truthy s
  | PInt z => negb (z =? 0)
  end.

Definition py_or (v d : pyval) : pyval :=
  if py_truthy v then v else d.

Inductive exn : Type :=
| SCMError (msg : string)
| IOError (msg : string)
| SCMClientDependencyError
| InvalidRevisionSpecError
| TooManyRevisionsError
| NotImplementedError
| TypeError
| OverflowError
| OtherError (name : string).

Inductive outcome (A : Type) : Type :=
| Ok (a : A)
| Raise (e : exn).
Arguments Ok {A} a.
Arguments Raise {A} e.

(** [sys.maxsize], the largest C [ssize_t], of a 64-bit build. *)
Definition PY_SSIZE_T_MAX : Z := 2 ^ 63 - 1.

(** [pattern.sub(repl, s, count)] as it is called: [count] is
    converted to a C [ssize_t] first, and an integer that does not fit
    raises [OverflowError]. *)
Definition pattern_sub (p : Re.pattern) (repl s : string) (count : Z)
    : outcome string :=
  if (- PY_SSIZE_T_MAX - 1 <=? count) && (count <=? PY_SSIZE_T_MAX)
  then Ok (Re.sub p repl s count)
  else Raise OverflowError.

(** A list comprehension [[f(x) for x in l]]: the first exception ends
    it. *)
Fixpoint map_outcome {A B : Type} (f : A -> outcome B) (l : list A)
    : outcome (list B) :=
  match l with
  | [] => Ok []
  | x :: l' =>
      match f x with
      | Raise e => Raise e
      | Ok y =>
          match map_outcome f l' with
          | Raise e => Raise e
          | Ok ys => Ok (y :: ys)
          end
      end
  end.

(** [_strip_p_num_slashes(files, p_num)] *)
Definition _strip_p_num_slashes (files : list string) (p_num : Z)
    : outcome (list string) :=
  if 0 <? p_num
  then map_outcome (fun f => pattern_sub strip_regex "" f p_num) files
  else Ok files.

(** What [execute(cmd, extra_ignore_errors=(2,), return_error_code=True)]
    does: it hands back the exit code and the captured output, or
    raises. *)
Inductive exec_outcome : Type :=
| Returned (rc : Z) (output : string)
| ExecRaised (e : exn).

(** The result of [int(x)]. *)
Inductive int_result : Type :=
| IntOk (z : Z)
| IntValueError
| IntTypeError.

Inductive level : Type := Warning | Error.

Inductive log_arg : Type :=
| AStr (s : string)
| AInt (z : Z)
| AExn (e : exn).

(** What a call does to the outside, in order: the [logging] records
    it writes, the commands it hands to [execute], the
    [RemovedInRBTools50Warning] it issues and its calls of the
    [check_dependencies] hook. *)
Inductive event : Type :=
| Log (l : level) (fmt : string) (args : list log_arg)
| Exec (cmd : list string)
| DeprecationWarning (cls_name : string)
| CheckDependencies.

(** [PatchResult(applied=..., patch_output=...)]; the other fields keep
    their defaults. *)
Record PatchResult : Type := mkPatchResult {
  applied : bool;
  patch_output : string
}.

(** What [apply_patch] calls and does not define: builtins, the
    [execute] helper, the file system and the two methods a backend
    overrides. *)
Record World : Type := mkWorld {
  (** [int(s)] for a [str]; [None] is [ValueError] *)
  int_of_str : string -> option Z;
  (** ['%s' % (cmd,)], the text of a list of strings *)
  str_of_list : list string -> string;
  execute : list string -> exec_outcome;
  supports_empty_files : bool;
  (** [open(patch_file, 'rb').read()]; [inr msg] is an [IOError] *)
  read_file : string -> string + string;
  apply_patch_for_empty_files : string -> Z -> bool -> outcome bool
}.

(** Calls leave a trace and end in a value or an exception. *)
Definition M (A : Type) : Type := (outcome A * list event)%type.

Definition ret {A} (a : A) : M A := (Ok a, []).
Definition raise {A} (e : exn) : M A := (Raise e, []).
Definition emit (ev : event) : M unit := (Ok tt, [ev]).
Definition lift {A} (o : outcome A) : M A := (o, []).

Definition bind {A B} (m : M A) (f : A -> M B) : M B :=
  match m with
  | (Ok a, t) => let (r, t') := f a in (r, (t ++ t')%list)
  | (Raise e, t) => (Raise e, t)
  end.

Notation "x <- m ;; k" := (bind m (fun x => k))
  (at level 61, m at next level, right associativity).
Notation "m ;;; k" := (bind m (fun _ => k))
  (at level 61, right associativity).

(** [int(v)] *)
Definition py_int (w : World) (v : pyval) : int_result :=
  match v with
  | PInt z => IntOk z
  | PStr s =>
      match int_of_str w s with
      | Some z => IntOk z
      | None => IntValueError
      end
  | PNone => IntTypeError
  end.

Definition fatal_preamble : string := "patch: **** ".

Definition newline : string := String (ascii_of_nat 10) EmptyString.

Definition only_garbage_in_patch : string :=
  "patch: **** Only garbage was found in the patch input." ++ newline.

Definition failed_message (w : World) (cmd : list string) (out : string)
    : string :=
  "Failed to execute command: " ++ str_of_list w cmd ++ newline ++ out.

(** ['-p%d' % p_num] *)
Definition p_flag (p_num : Z) : string := "-p" ++ PyStr.format_d p_num.

(** [apply_patch(patch_file, base_path, base_dir, p, revert)].  After
    [int(p_num)] the test [p_num is not None] always holds and is left
    out. *)
Definition apply_patch (w : World) (patch_file base_path base_dir : string)
    (p : pyval) (revert : bool) : M (option PatchResult) :=
  let p_num := py_or p (PInt (_get_p_number base_path base_dir)) in
  let cmd := ["patch"] in
  let cmd := if revert then (cmd ++ ["-R"])%list else cmd in
  p_num <- match py_int w p_num with
           | IntOk z => ret z
           | IntValueError =>
               emit (Log Warning "Invalid -p value: %s; assuming zero."
                       [AInt 0]) ;;;
               ret 0
           | IntTypeError => raise TypeError
           end ;;
  cmd <- (if 0 <=? p_num
          then ret (cmd ++ [p_flag p_num])%list
          else emit (Log Warning "Unsupported -p value: %d; assuming zero."
                       [AInt p_num]) ;;;
               ret cmd) ;;
  let cmd := (cmd ++ ["-i"; patch_file])%list in
  emit (Exec cmd) ;;;
  match execute w cmd with
  | ExecRaised e => raise e
  | Returned rc patch_output =>
      if PyStr.truthy patch_output
         && PyStr.startswith patch_output fatal_preamble
         && negb (String.eqb patch_output only_garbage_in_patch)
      then raise (SCMError (failed_message w cmd patch_output))
      else
        let finish := ret (Some (mkPatchResult (rc =? 0) patch_output)) in
        if supports_empty_files w then
          match read_file w patch_file with
          | inr e =>
              emit (Log Error "Unable to read file %s: %s"
                      [AStr patch_file; AExn (IOError e)]) ;;;
              ret None
          | inl patch =>
              patched_empty_files <-
                lift (apply_patch_for_empty_files w patch p_num revert) ;;
              if String.eqb patch_output only_garbage_in_patch
                 && negb patched_empty_files
              then raise (SCMError (failed_message w cmd patch_output))
              else finish
          end
        else finish
  end.

(** The argument vector [apply_patch] builds (the value of [cmd] when
    [execute] is called). *)
Definition patch_argv (w : World) (patch_file base_path base_dir : string)
    (p : pyval) (revert : bool) : list string :=
  ((if revert then ["patch"; "-R"] else ["patch"]) ++
   match py_int w (py_or p (PInt (_get_p_number base_path base_dir))) with
   | IntOk z => if 0 <=? z then [p_flag z] else []
   | IntValueError => [p_flag 0]
   | IntTypeError => []
   end ++ ["-i"; patch_file])%list.

(** Decimal syntax of [int(s)] on ASCII text: optional blanks around an
    optional sign and digits, single underscores between digits. *)
Module AsciiInt.

Definition is_space (c : ascii) : bool :=
  let n := nat_of_ascii c in
  (((9 <=? n) && (n <=? 13)) || (n =? 32))%nat.

Definition digit (c : ascii) : option Z :=
  let n := nat_of_ascii c in
  if ((48 <=? n) && (n <=? 57))%nat then Some (Z.of_nat n - 48) else None.

Fixpoint lstrip (s : string) : string :=
  match s with
  | String c s' => if is_space c then lstrip s' else s
  | EmptyString => s
  end.

(** Digits with the value read so far; [fresh] tells that a digit
    must come next (at the start and after an underscore).  Trailing
    blanks end the number. *)
Fixpoint digits (acc : Z) (fresh : bool) (s : string) : option Z :=
  match s with
  | EmptyString => if fresh then None else Some acc
  | String c s' =>
      match digit c with
      | Some d => digits (10 * acc + d) false s'
      | None =>
          if fresh then None
          else if Ascii.eqb c "_"%char then digits acc true s'
          else if is_space c
          then match lstrip s' with
               | EmptyString => Some acc
               | _ => None
               end
          else None
      end
  end.

Definition parse (s : string) : option Z :=
  match lstrip s with
  | String "-"%char s' => option_map Z.opp (digits 0 true s')
  | String "+"%char s' => digits 0 true s'
  | s' => digits 0 true s'
  end.

End AsciiInt.

(** ** [BaseSCMClient]: set-up and dependency checks *)

Module Lifecycle.

(** The attributes [__init__] sets that [setup] and [has_dependencies]
    read and write, and the state [sub] of the subclass, which
    [check_dependencies] may update. *)
Record Client (S : Type) : Type := mkClient {
  is_setup : bool;
  _has_deps : option bool;
  sub : S
}.
Arguments mkClient {S} _ _ _.
Arguments is_setup {S} _.
Arguments _has_deps {S} _.
Arguments sub {S} _.

(** What a backend class provides: its name and its
    [check_dependencies], which ends normally or raises. *)
Record Backend (S : Type) : Type := mkBackend {
  cls_name : string;
  check_dependencies : S -> outcome unit * S
}.
Arguments mkBackend {S} _ _.
Arguments cls_name {S} _.
Arguments check_dependencies {S} _ _.

(** [__init__] *)
Definition init {S} (s : S) : Client S := mkClient false None s.

Section Methods.
Context {S : Type} (b : Backend S).

(** [setup()] *)
Definition setup (c : Client S) : outcome unit * Client S * list event :=
  if is_setup c then (Ok tt, c, [])
  else
    let (r, s') := check_dependencies b (sub c) in
    match r with
    | Ok _ =>
        (Ok tt, mkClient true (Some true) s', [CheckDependencies])
    | Raise SCMClientDependencyError =>
        (Raise SCMClientDependencyError,
         mkClient (is_setup c) (Some false) s', [CheckDependencies])
    | Raise e =>
        (Raise e, mkClient (is_setup c) (_has_deps c) s',
         [CheckDependencies])
    end.

(** [has_dependencies(expect_checked)] *)
Definition has_dependencies (c : Client S) (expect_checked : bool)
    : outcome (option bool) * Client S * list event :=
  match _has_deps c with
  | None =>
      let warned :=
        if expect_checked then [DeprecationWarning (cls_name b)] else [] in
      match setup c with
      | (Ok _, c', t) | (Raise SCMClientDependencyError, c', t) =>
          (Ok (_has_deps c'), c', (warned ++ t)%list)
      | (Raise e, c', t) => (Raise e, c', (warned ++ t)%list)
      end
  | Some _ => (Ok (_has_deps c), c, [])
  end.

(** A run of [has_dependencies] calls, one per flag: the values
    returned, the client left and the events of the whole run.  The
    run stops at a call that raises. *)
Fixpoint has_dependencies_calls (c : Client S) (flags : list bool)
    : list (option bool) * Client S * list event :=
  match flags with
  | [] => ([], c, [])
  | f :: flags' =>
      match has_dependencies c f with
      | (Ok v, c', t) =>
          match has_dependencies_calls c' flags' with
          | (vs, c'', t') => (v :: vs, c'', (t ++ t')%list)
          end
      | (Raise _, c', t) => ([], c', t)
      end
  end.

End Methods.

End Lifecycle.

(** ** The Perforce backend: revision resolution and diff synthesis

    [rbtools/clients/perforce.py] is known here through its tests
    ([rbtools/clients/tests/test_p4.py]) only. *)

Module Perforce.

Inductive status : Type := Submitted | Pending | Shelved.

(** A revision of a range: a changelist number as the user wrote it,
    or one of the two sentinels [REVISION_CURRENT_SYNC] and
    [REVISION_PENDING_CLN_PREFIX] followed by a changelist. *)
Inductive RevisionId : Type :=
| Concrete (id : string)
| CurrentSync
| PendingCln (id : string).

Record RevisionRange : Type := mkRange {
  base : RevisionId;
  tip : RevisionId
}.

(** Modelled from the spec: the numeric order of section 4.1 reads a
    changelist token as a decimal number (digits only). *)
Fixpoint cln_digits (acc : Z) (s : string) : option Z :=
  match s with
  | EmptyString => Some acc
  | String c s' =>
      match AsciiInt.digit c with
      | Some d => cln_digits (10 * acc + d) s'
      | None => None
      end
  end.

Definition cln_number (token : string) : option Z :=
  match token with
  | EmptyString => None
  | _ => cln_digits 0 token
  end.

Section Resolver.
(** The backend's read-only metadata query ([p4 change]): the status
    of the changelist a token names, [None] when no revision
    matches. *)
Variable change_status : string -> option status.

(** Modelled from the spec: [PerforceClient.parse_revision_spec] is
    missing from the sources; this follows section 4.1
    (RevisionResolver) and the outcomes
    [test_parse_revision_spec_*] expect.  No token gives the
    pending default changelist against the current sync point; one
    token gives its predecessor and itself, or the pending
    sentinels for a pending or shelved changelist; two tokens must
    both be submitted and in order; more are too many; a token the
    backend does not know is invalid. *)
Definition parse_revision_spec (revisions : list string)
    : outcome RevisionRange :=
  match revisions with
  | [] => Ok (mkRange CurrentSync (PendingCln "default"))
  | [t] =>
      match change_status t with
      | Some Submitted =>
          match cln_number t with
          | Some n => Ok (mkRange (Concrete (PyStr.format_d (n - 1)))
                                  (Concrete t))
          | None => Raise InvalidRevisionSpecError
          end
      | Some Pending | Some Shelved =>
          Ok (mkRange CurrentSync (PendingCln t))
      | None => Raise InvalidRevisionSpecError
      end
  | [t1; t2] =>
      match change_status t1 with
      | Some Submitted =>
          match change_status t2 with
          | Some Submitted =>
              match cln_number t1, cln_number t2 with
              | Some n1, Some n2 =>
                  if n1 <=? n2
                  then Ok (mkRange (Concrete t1) (Concrete t2))
                  else Raise InvalidRevisionSpecError
              | _, _ => Raise InvalidRevisionSpecError
              end
          | _ => Raise InvalidRevisionSpecError
          end
      | _ => Raise InvalidRevisionSpecError
      end
  | _ => Raise TooManyRevisionsError
  end.

End Resolver.

(** The [change] method of the wrapper in
    [test_parse_revision_spec_two_args]; it asserts on any other
    changelist, which [None] stands for. *)
Definition two_args_status (changelist : string) : option status :=
  if String.eqb changelist "99" || String.eqb changelist "100"
  then Some Submitted
  else if String.eqb changelist "101" then Some Pending
  else if String.eqb changelist "102" then Some Shelved
  else None.

(** *** Diff synthesis *)

Inductive action : Type := Add | Edit | Delete | MoveAdd | MoveDelete.

Definition action_eqb (a b : action) : bool :=
  match a, b with
  | Add, Add | Edit, Edit | Delete, Delete
  | MoveAdd, MoveAdd | MoveDelete, MoveDelete => true
  | _, _ => false
  end.

Record ChangedFileRecord : Type := mkRecord {
  depot_path : string;
  revision : string;
  act : action;
  change_id : string
}.

(** What the synthesizer reads and does not compute: the snapshot
    store (the content of a depot file at a revision and the content
    of its working copy), the location metadata that links a moved
    file to its destination, the textual unified-diff computation
    (the hunks between two texts, empty when they are equal) and the
    time stamp of the [+++] line. *)
Record Env : Type := mkEnv {
  depot_content : string -> string -> string;
  working_content : string -> string;
  moved_file : string -> option string;
  unified_hunks : string -> string -> string;
  timestamp : string
}.

Definition tab : string := String (ascii_of_nat 9) EmptyString.

(** Modelled from the spec: the two header lines of a fragment
    (section 4.2 step 3, section 6), in the format the tests expect:
    the depot path and the base revision on the old side, the new path
    and the time stamp on the new side. *)
Definition file_header (e : Env) (old_path rev new_path : string)
    : string :=
  "--- " ++ old_path ++ tab ++ old_path ++ "#" ++ rev ++ newline ++
  "+++ " ++ new_path ++ tab ++ timestamp e ++ newline.

(** Modelled from the spec: the move markers of section 4.2 step 2, as
    [test_diff_with_moved_files_cap_on] expects them: two lines before
    the header of a moved file whose content changed, one line for a
    moved file whose content did not. *)
Definition move_annotation (src dst : string) : string :=
  "Moved from: " ++ src ++ newline ++ "Moved to: " ++ dst ++ newline.

Definition move_marker (src rev dst : string) : string :=
  "==== " ++ src ++ "#" ++ rev ++ " ==MV== " ++ dst ++ " ====" ++ newline
  ++ newline.

(** Modelled from the spec: old and new snapshot of a record treated
    on its own (section 4.2 step 1): an added file has no old content,
    a deleted one no new content; the old side is labelled with the
    revision of the record, with 0 for an added file. *)
Definition old_snapshot (e : Env) (r : ChangedFileRecord) : string :=
  match act r with
  | Add | MoveAdd => EmptyString
  | _ => depot_content e (depot_path r) (revision r)
  end.

Definition new_snapshot (e : Env) (r : ChangedFileRecord) : string :=
  match act r with
  | Delete | MoveDelete => EmptyString
  | _ => working_content e (depot_path r)
  end.

Definition base_revision (r : ChangedFileRecord) : string :=
  match act r with
  | Add | MoveAdd => "0"
  | _ => revision r
  end.

Definition is_add_or_delete (a : action) : bool :=
  match a with
  | Edit => false
  | _ => true
  end.

(** Modelled from the spec: the fragment of a record treated on its
    own (section 4.2 steps 3 and 5): header and hunks; the header alone
    for an added or deleted file that is empty on both sides; nothing
    for a file without a difference. *)
Definition plain_fragment (e : Env) (r : ChangedFileRecord)
    : list string :=
  let old := old_snapshot e r in
  let new := new_snapshot e r in
  let hunks := unified_hunks e old new in
  let header := file_header e (depot_path r) (base_revision r)
                  (depot_path r) in
  match hunks with
  | EmptyString =>
      if is_add_or_delete (act r) && negb (PyStr.truthy old)
         && negb (PyStr.truthy new)
      then [header] else []
  | _ => [header ++ hunks]
  end.

(** Modelled from the spec: the [move_add] record that the location
    metadata pairs with the [move_delete] record [r] in the changeset
    [files] (section 4.2 step 2, MoveLink of section 3). *)
Definition move_target (e : Env) (files : list ChangedFileRecord)
    (r : ChangedFileRecord) : option ChangedFileRecord :=
  match act r, moved_file e (depot_path r) with
  | MoveDelete, Some dst =>
      find (fun r' => action_eqb (act r') MoveAdd
                      && String.eqb (depot_path r') dst
                      && String.eqb (change_id r') (change_id r)) files
  | _, _ => None
  end.

(** Whether [r] is the [move_add] side of such a pair. *)
Definition is_move_target (e : Env) (files : list ChangedFileRecord)
    (r : ChangedFileRecord) : bool :=
  action_eqb (act r) MoveAdd &&
  existsb (fun r0 =>
             match move_target e files r0 with
             | Some r' => String.eqb (depot_path r') (depot_path r)
             | None => false
             end) files.

(** Modelled from the spec: the one fragment of a pair (section 4.2
    step 2): old content of the source against new content of the
    destination. *)
Definition move_fragment (e : Env) (src dst : ChangedFileRecord)
    : string :=
  let old := depot_content e (depot_path src) (revision src) in
  let new := working_content e (depot_path dst) in
  match unified_hunks e old new with
  | EmptyString =>
      move_marker (depot_path src) (revision src) (depot_path dst)
  | hunks =>
      move_annotation (depot_path src) (depot_path dst) ++
      file_header e (depot_path src) (revision src) (depot_path dst) ++
      hunks
  end.

(** Modelled from the spec: the fragments one record of the changeset
    contributes (section 4.2 step 2): with move detection, the source
    of a pair gives the combined fragment and its destination none;
    every other record, and every record without move detection, is
    treated on its own. *)
Definition record_fragments (e : Env) (move_detection_enabled : bool)
    (files : list ChangedFileRecord) (r : ChangedFileRecord)
    : list string :=
  if move_detection_enabled then
    match move_target e files r with
    | Some dst => [move_fragment e r dst]
    | None => if is_move_target e files r then [] else plain_fragment e r
    end
  else plain_fragment e r.

(** Modelled from the spec: the diff synthesis of [PerforceClient.diff]
    is missing from the sources; this follows section 4.2
    (DiffSynthesizer), steps 1 to 5, with the fragment formats that
    [test_diff_with_pending_changelist] and
    [test_diff_with_moved_files_cap_on] / [_cap_off] expect.  The
    fragments come in the order of [changed_files]. *)
Definition diff_fragments (e : Env) (move_detection_enabled : bool)
    (changed_files : list ChangedFileRecord) : list string :=
  flat_map (record_fragments e move_detection_enabled changed_files)
    changed_files.

(** Modelled from the spec: the [diff] bytes are the fragments in a
    row (section 4.2 step 4). *)
Definition synthesize (e : Env) (move_detection_enabled : bool)
    (changed_files : list ChangedFileRecord) : string :=
  PyStr.join (diff_fragments e move_detection_enabled changed_files).

(** *** The data of the diff tests *)

Module MovedFilesTest.

Definition readme : string := "//mydepot/test/README".
Definition readme_new : string := "//mydepot/test/README-new".
Definition copying : string := "//mydepot/test/COPYING".
Definition copying_new : string := "//mydepot/test/COPYING-new".

Definition repo_files : list ChangedFileRecord :=
  [ mkRecord readme "2" MoveDelete "12345";
    mkRecord readme_new "1" MoveAdd "12345";
    mkRecord copying "2" MoveDelete "12345";
    mkRecord copying_new "1" MoveAdd "12345" ].

Definition text_test : string := "This is a test." ++ newline.
Definition text_mess : string := "This is a mess." ++ newline.
Definition text_copyright : string :=
  "Copyright 2013 Joe User." ++ newline.

(** [print_file] *)
Definition print_file (path rev : string) : string :=
  if String.eqb path readme && String.eqb rev "2" then text_test
  else if String.eqb path readme_new && String.eqb rev "1" then text_mess
  else if String.eqb path copying && String.eqb rev "2"
  then text_copyright
  else if String.eqb path copying_new && String.eqb rev "1"
  then text_copyright
  else EmptyString.

(** [where_files]: each working file holds what [print_file] wrote
    into it. *)
Definition where_files (path : string) : string :=
  if String.eqb path readme then text_test
  else if String.eqb path readme_new then text_mess
  else if String.eqb path copying then text_copyright
  else if String.eqb path copying_new then text_copyright
  else EmptyString.

(** The [movedFile] entries of [fstat_files]. *)
Definition fstat_moved (path : string) : option string :=
  if String.eqb path readme then Some readme_new
  else if String.eqb path copying then Some copying_new
  else None.

(** The range of a hunk header: [start,count], the count left out
    when it is 1. *)
Definition hunk_range (n : nat) : string :=
  match n with
  | O => "0,0"
  | S O => "1"
  | _ => "1," ++ PyStr.format_d (Z.of_nat n)
  end.

(** A textual diff for texts without a common line: one hunk that
    removes every old line and adds every new one. *)
Definition replace_hunk (old new : string) : string :=
  if String.eqb old new then EmptyString
  else
    let o := PyStr.splitlines old in
    let n := PyStr.splitlines new in
    "@@ -" ++ hunk_range (List.length o) ++ " +"
    ++ hunk_range (List.length n) ++ " @@" ++ newline
    ++ PyStr.join (map (fun l => "-" ++ l) o)
    ++ PyStr.join (map (fun l => "+" ++ l) n).

Definition env : Env :=
  mkEnv print_file where_files fstat_moved replace_hunk
    "2022-01-02 12:34:56".

End MovedFilesTest.

(** [test_diff_with_pending_changelist]: the files opened in
    changelist 12345. *)
Module PendingTest.

Definition readme : string := "//mydepot/test/README".
Definition copying : string := "//mydepot/test/COPYING".
Definition makefile : string := "//mydepot/test/Makefile".

Definition opened : list ChangedFileRecord :=
  [ mkRecord readme "2" Edit "12345";
    mkRecord copying "1" Add "12345";
    mkRecord makefile "3" Delete "12345" ].

Definition print_file (path rev : string) : string :=
  if String.eqb path readme && String.eqb rev "2"
  then "This is a test." ++ newline
  else if String.eqb path readme && String.eqb rev "3"
  then "This is a mess." ++ newline
  else if String.eqb path copying && String.eqb rev "1"
  then "Copyright 2013 Joe User." ++ newline
  else if String.eqb path makefile && String.eqb rev "3"
  then "all: all" ++ newline
  else EmptyString.

(** The working files hold revision 3 of [README] and revision 1 of
    [COPYING]; the one of [Makefile] is empty. *)
Definition where_files (path : string) : string :=
  if String.eqb path readme then print_file readme "3"
  else if String.eqb path copying then print_file copying "1"
  else EmptyString.

Definition env : Env :=
  mkEnv print_file where_files (fun _ => None) MovedFilesTest.replace_hunk
    "2022-01-02 12:34:56".

End PendingTest.

End Perforce.


(** ** Observations and sample worlds *)

(** The commands a trace hands to [execute]. *)
Fixpoint executed (t : list event) : list (list string) :=
  match t with
  | [] => []
  | Exec cmd :: t' => cmd :: executed t'
  | _ :: t' => executed t'
  end.

(** The text of a list of arguments that need no escaping:
    [['patch', '-p1']]. *)
Fixpoint comma_separated (l : list string) : string :=
  match l with
  | [] => EmptyString
  | [a] => "'" ++ a ++ "'"
  | a :: l' => "'" ++ a ++ "', " ++ comma_separated l'
  end.

Definition list_text (l : list string) : string :=
  "[" ++ comma_separated l ++ "]".

(** A world whose [patch] answers [rc] and [out] to every command,
    whose backend handles empty files when [empty_files] is set and
    whose patch file reads as [content]. *)
Definition sample_world (rc : Z) (out : string) (empty_files : bool)
    (content : string + string) : World :=
  mkWorld AsciiInt.parse list_text
    (fun _ => Returned rc out) empty_files (fun _ => content)
    (fun _ _ _ => Ok false).




(** Two backends over a subclass state that counts the probes made:
    one whose tools are installed and one that misses a tool. *)
Definition installed_backend : Lifecycle.Backend nat :=
  Lifecycle.mkBackend "InstalledClient" (fun n => (Ok tt, S n)).

Definition missing_backend : Lifecycle.Backend nat :=
  Lifecycle.mkBackend "MissingClient"
    (fun n => (Raise SCMClientDependencyError, S n)).

(** ** [BaseSCMClient.get_commit_message]

    The characters of a message are code points below 256. *)

Module CommitMessage.

(** The line boundaries of [str.splitlines]: line feed, vertical tab,
    form feed, carriage return, the file, group and record separators
    and the next-line control. *)
Definition is_linebreak (c : ascii) : bool :=
  let n := nat_of_ascii c in
  (((10 <=? n) && (n <=? 13)) || ((28 <=? n) && (n <=? 30)) || (n =? 133))%nat.

(** The white space of [str.strip]. *)
Definition is_space (c : ascii) : bool :=
  let n := nat_of_ascii c in
  (((9 <=? n) && (n <=? 13)) || ((28 <=? n) && (n <=? 32))
   || (n =? 133) || (n =? 160))%nat.

Definition is_cr (c : ascii) : bool := (nat_of_ascii c =? 13)%nat.
Definition is_lf (c : ascii) : bool := (nat_of_ascii c =? 10)%nat.

(** [s.splitlines()]: the lines without their boundaries; a carriage
    return followed by a line feed is one boundary, and a boundary at
    the end opens no further line. *)
Fixpoint splitlines (s : string) : list string :=
  match s with
  | EmptyString => []
  | String c s' =>
      if is_linebreak c then
        match s' with
        | String d s'' =>
            if is_cr c && is_lf d
            then EmptyString :: splitlines s''
            else EmptyString :: splitlines s'
        | EmptyString => [EmptyString]
        end
      else
        match splitlines s' with
        | [] => [String c EmptyString]
        | l :: ls => String c l :: ls
        end
  end.

Fixpoint lstrip (s : string) : string :=
  match s with
  | String c s' => if is_space c then lstrip s' else s
  | EmptyString => s
  end.

Fixpoint rstrip (s : string) : string :=
  match s with
  | EmptyString => EmptyString
  | String c s' =>
      match rstrip s' with
      | EmptyString => if is_space c then EmptyString else String c EmptyString
      | r => String c r
      end
  end.

(** [s.strip()] *)
Definition strip (s : string) : string := rstrip (lstrip s).

(** ['\n'.join(lines)] *)
Fixpoint join_lines (lines : list string) : string :=
  match lines with
  | [] => EmptyString
  | [l] => l
  | l :: ls => l ++ newline ++ join_lines ls
  end.

(** The dictionary [get_commit_message] returns. *)
Record Message : Type := mkMessage {
  summary : string;
  description : string
}.

(** [get_commit_message(revisions)].  [get_raw_commit_message] is the
    method a backend overrides: it returns the message, returns [None]
    or raises; [None] has no [splitlines]. *)
Definition get_commit_message {R : Type}
    (get_raw_commit_message : R -> outcome (option string)) (revisions : R)
    : outcome (option Message) :=
  match get_raw_commit_message revisions with
  | Raise e => Raise e
  | Ok None => Raise (OtherError "AttributeError")
  | Ok (Some commit_message) =>
      let lines := splitlines commit_message in
      match lines with
      | [] => Ok None
      | first :: _ =>
          Ok (Some
                (mkMessage first
                   (if (3 <=? List.length lines)%nat
                       && PyStr.truthy first
                       && negb (PyStr.truthy (nth 1 lines EmptyString))
                    then strip (join_lines (skipn 2 lines))
                    else commit_message)))
      end
  end.

(** A text without a line boundary. *)
Definition one_line (s : string) : Prop :=
  forall c, In c (list_ascii_of_string s) -> is_linebreak c = false.

Definition starts_with_space (s : string) : bool :=
  match s with
  | String c _ => is_space c
  | EmptyString => false
  end.

Fixpoint ends_with_space (s : string) : bool :=
  match s with
  | EmptyString => false
  | String c EmptyString => is_space c
  | String _ s' => ends_with_space s'
  end.

End CommitMessage.

(** A line feed. *)
Definition lf : ascii := ascii_of_nat 10.

(** ** [PerforceClientTests._normalize_diff] *)

Module NormalizeDiff.

(** [\d] of a bytes pattern. *)
Definition is_digit (c : ascii) : bool :=
  let n := nat_of_ascii c in ((48 <=? n) && (n <=? 57))%nat.

Definition digit : Re.item := (is_digit, Re.One).
Definition lit (x : ascii) : Re.item := (fun c => Ascii.eqb c x, Re.One).

(** [br'\d{4}-\d{2}-\d{2} \d{2}:\d{2}:\d{2}'], the counted
    repetitions written out. *)
Definition timestamp_regex : Re.pattern :=
  [digit; digit; digit; digit; lit "-"; digit; digit; lit "-";
   digit; digit; lit " "; digit; digit; lit ":"; digit; digit; lit ":";
   digit; digit].

Definition fixed_timestamp : string := "2022-01-02 12:34:56".

(** The values of a diff result: [None], bytes, text. *)
Inductive value : Type :=
| VNone
| VBytes (b : string)
| VStr (s : string).

(** A [dict] with string keys. *)
Definition dict : Type := string -> option value.

(** [d.get(key)] *)
Definition get (d : dict) (key : string) : value :=
  match d key with
  | Some v => v
  | None => VNone
  end.

(** [d[key] = v] *)
Definition set (d : dict) (key : string) (v : value) : dict :=
  fun k => if String.eqb k key then Some v else d k.

Definition truthy (v : value) : bool :=
  match v with
  | VNone => false
  | VBytes b => PyStr.truthy b
  | VStr s => PyStr.truthy s
  end.

(** [re.sub(pattern, fixed, b)] *)
Definition normalize (b : string) : string :=
  Re.sub timestamp_regex fixed_timestamp b 0.

(** One turn of the loop over the keys; a bytes pattern does not apply
    to text. *)
Definition normalize_key (d : dict) (key : string) : outcome dict :=
  if truthy (get d key) then
    match get d key with
    | VBytes b => Ok (set d key (VBytes (normalize b)))
    | _ => Raise TypeError
    end
  else Ok d.

(** [_normalize_diff(diff_result)] *)
Definition _normalize_diff (diff_result : dict) : outcome dict :=
  match normalize_key diff_result "diff" with
  | Ok d => normalize_key d "parent_diff"
  | Raise e => Raise e
  end.

(** The kind of a character for the pattern: digit (0), [-] (1), blank
    (2), [:] (3), other (4). *)
Definition kind (c : ascii) : nat :=
  if is_digit c then 0
  else if Ascii.eqb c "-" then 1
  else if Ascii.eqb c " " then 2
  else if Ascii.eqb c ":" then 3
  else 4.

Fixpoint kinds (s : string) : list nat :=
  match s with
  | EmptyString => []
  | String c s' => kind c :: kinds s'
  end.

(** The pattern that takes one character of each of the given kinds. *)
Definition pattern_of_kinds (ks : list nat) : Re.pattern :=
  map (fun k => (fun c => Nat.eqb (kind c) k, Re.One)) ks.

Definition stamp_kinds : list nat := kinds fixed_timestamp.

(** The scan of [re.sub] without a bound, for the time-stamp pattern. *)
Definition scan (s : string) : string :=
  Re.sub_scan timestamp_regex fixed_timestamp None O s.

(** A diff result as the tests get it: a diff with a time stamp and a
    changelist number. *)
Definition sample_result : dict :=
  fun k =>
    if String.eqb k "diff"
    then Some (VBytes ("--- a" ++ Perforce.tab ++ "a#2" ++ newline
                       ++ "+++ a" ++ Perforce.tab ++ "1970-01-01 00:00:00"
                       ++ newline))
    else if String.eqb k "changenum" then Some (VStr "12345")
    else None.

End NormalizeDiff.

(** ** [rbtools/hooks/common.py] *)

Module Hooks.

(** The white space of [bytes.strip]. *)
Definition is_ascii_space (c : ascii) : bool :=
  let n := nat_of_ascii c in
  (((9 <=? n) && (n <=? 13)) || (n =? 32))%nat.

Section Strip.
Variable sp : ascii -> bool.

Fixpoint lstrip_with (s : string) : string :=
  match s with
  | String c s' => if sp c then lstrip_with s' else s
  | EmptyString => s
  end.

Fixpoint rstrip_with (s : string) : string :=
  match s with
  | EmptyString => EmptyString
  | String c s' =>
      match rstrip_with s' with
      | EmptyString => if sp c then EmptyString else String c EmptyString
      | r => String c r
      end
  end.

(** [output.strip()] *)
Definition strip_with (s : string) : string := rstrip_with (lstrip_with s).

Fixpoint all_space (s : string) : bool :=
  match s with
  | EmptyString => true
  | String c s' => sp c && all_space s'
  end.

Definition starts_space (s : string) : bool :=
  match s with
  | String c _ => sp c
  | EmptyString => false
  end.

Fixpoint ends_space (s : string) : bool :=
  match s with
  | EmptyString => false
  | String c EmptyString => sp c
  | String _ s' => ends_space s'
  end.

End Strip.

(** The white space [strip] removes: that of [str] for text output,
    that of [bytes] otherwise. *)
Definition space_of (text : bool) : ascii -> bool :=
  if text then CommitMessage.is_space else is_ascii_space.

(** What a hook function does to the outside. *)
Inductive hook_event (C Id RR : Type) : Type :=
| PendingRemovalWarning
| FailedToExecute (command : C)
| AlreadySubmitted (review_request_id : Id)
| Update (review_request : RR) (description : option string)
| Printed (review_request_id : Id) (status : string).
Arguments PendingRemovalWarning {C Id RR}.
Arguments FailedToExecute {C Id RR} command.
Arguments AlreadySubmitted {C Id RR} review_request_id.
Arguments Update {C Id RR} review_request description.
Arguments Printed {C Id RR} review_request_id status.

(** [execute(command, text=..., strip=...)].  [popen] stands for
    [subprocess.Popen(command, stdout=PIPE, text=text)] and
    [communicate]: it gives the output and the return code, or
    raises. *)
Definition execute {C : Type} (popen : C -> bool -> outcome (string * Z))
    (command : C) (text strip : bool)
    : outcome (option string) * list (hook_event C unit unit) :=
  match popen command text with
  | Raise e => (Raise e, [PendingRemovalWarning])
  | Ok (output, returncode) =>
      let output :=
        if strip then strip_with (space_of text) output else output in
      if negb (returncode =? 0)
      then (Ok None, [PendingRemovalWarning; FailedToExecute command])
      else (Ok (Some output), [PendingRemovalWarning])
  end.

(** The exceptions of the API client, by the [except] clause that
    takes them: [ServerInterfaceError], [APIError] (with its
    subclasses), any other. *)
Inductive api_failure : Type :=
| ServerInterfaceError (text : string)
| APIError (text : string)
| UnrelatedError (name : string).

Inductive hook_exn : Type :=
| HookError (msg : string)
| Propagated (e : api_failure).

Definition SUBMITTED : string := "submitted".

(** The API client as the hooks use it. *)
Record Api (Client Root Id RR : Type) : Type := mkApi {
  (** [RBClient(server_url, username=..., password=...)] *)
  new_client : string -> string -> string -> api_failure + Client;
  get_root : Client -> api_failure + Root;
  (** [api_root.get_review_request(review_request_id=...)] *)
  fetch : Root -> Id -> api_failure + RR;
  status : RR -> string;
  (** [review_request.update(status=SUBMITTED[, description=...])] *)
  update : RR -> option string -> api_failure + RR
}.
Arguments new_client {Client Root Id RR} _ _ _ _.
Arguments get_root {Client Root Id RR} _ _.
Arguments fetch {Client Root Id RR} _ _ _.
Arguments status {Client Root Id RR} _ _.
Arguments update {Client Root Id RR} _ _ _.

Section Api.
Context {Client Root Id RR : Type} (api : Api Client Root Id RR).

(** [get_api(server_url, username=..., password=...)] *)
Definition get_api (server_url username password : string)
    : hook_exn + (Client * Root) :=
  match new_client api server_url username password with
  | inl e => inl (Propagated e)
  | inr api_client =>
      match get_root api api_client with
      | inl (ServerInterfaceError e) =>
          inl (HookError ("Could not reach the Review Board server at "
                          ++ server_url ++ ": " ++ e))
      | inl (APIError e) => inl (HookError ("Unexpected API Error: " ++ e))
      | inl e => inl (Propagated e)
      | inr api_root => inr (api_client, api_root)
      end
  end.

(** [get_review_request(review_request_id, api_root)] *)
Definition get_review_request (review_request_id : Id) (api_root : Root)
    : hook_exn + RR :=
  match fetch api api_root review_request_id with
  | inl (APIError e) =>
      inl (HookError ("Error getting review request: " ++ e))
  | inl e => inl (Propagated e)
  | inr review_request => inr review_request
  end.

(** [close_review_request(server_url, username, password,
    review_request_id, description)] *)
Definition close_review_request (server_url username password : string)
    (review_request_id : Id) (description : string)
    : (hook_exn + unit) * list (hook_event unit Id RR) :=
  match get_api server_url username password with
  | inl e => (inl e, [])
  | inr (_, api_root) =>
      match get_review_request review_request_id api_root with
      | inl e => (inl e, [])
      | inr review_request =>
          if String.eqb (status api review_request) SUBMITTED
          then (inr tt, [AlreadySubmitted review_request_id])
          else
            let sent :=
              if PyStr.truthy description then Some description else None in
            match update api review_request sent with
            | inl e => (inl (Propagated e), [Update review_request sent])
            | inr updated =>
                (inr tt,
                 [Update review_request sent;
                  Printed review_request_id (status api updated)])
            end
      end
  end.

End Api.

(** The [Update] calls of a trace. *)
Fixpoint updates {C Id RR : Type} (t : list (hook_event C Id RR))
    : list (RR * option string) :=
  match t with
  | [] => []
  | Update r d :: t' => (r, d) :: updates t'
  | _ :: t' => updates t'
  end.

(** A server with the review requests 1 (pending) and 2 (submitted);
    a review request is its number and its status. *)
Definition sample_api : Api unit unit nat (nat * string) :=
  mkApi unit unit nat (nat * string)
    (fun _ _ _ => inr tt)
    (fun _ => inr tt)
    (fun _ n => match n with
                | 1%nat => inr (n, "pending")
                | 2%nat => inr (n, SUBMITTED)
                | _ => inl (APIError "Object does not exist")
                end)
    snd
    (fun r _ => inr (fst r, SUBMITTED)).

End Hooks.

(** ** Paths built from components *)

(** ['/'.join(components)] *)
Fixpoint path_of (components : list string) : string :=
  match components with
  | [] => EmptyString
  | [c] => c
  | c :: cs => c ++ "/" ++ path_of cs
  end.

(** A directory name of a path: not empty and without [/]. *)
Definition component (c : string) : Prop :=
  c <> EmptyString /\ slash_free c.

(** [r] is what is left of [f] after a prefix. *)
Definition suffix_of (r f : string) : Prop := exists pre, f = pre ++ r.

(** ** Runs of the set-up methods *)

(** The two public set-up calls. *)
Inductive call : Type :=
| CallSetup
| CallHasDependencies (expect_checked : bool).

Section Runs.
Context {S : Type} (b : Lifecycle.Backend S).

(** One call on a client.  An exception goes to the caller, who keeps
    the client and may call again. *)
Definition step (c : Lifecycle.Client S) (k : call)
    : Lifecycle.Client S * list event :=
  match k with
  | CallSetup =>
      match Lifecycle.setup b c with
      | (_, c', t) => (c', t)
      end
  | CallHasDependencies f =>
      match Lifecycle.has_dependencies b c f with
      | (_, c', t) => (c', t)
      end
  end.

(** A sequence of calls on one client: the client left and the events
    of the whole run. *)
Fixpoint run (c : Lifecycle.Client S) (ks : list call)
    : Lifecycle.Client S * list event :=
  match ks with
  | [] => (c, [])
  | k :: ks' =>
      match step c k with
      | (c', t) =>
          match run c' ks' with
          | (c'', t') => (c'', (t ++ t')%list)
          end
      end
  end.

End Runs.

(** A client is consistent when it is marked set up exactly when its
    dependency check is recorded as passed. *)
Definition consistent {S : Type} (c : Lifecycle.Client S) : Prop :=
  Lifecycle.is_setup c = true <-> Lifecycle._has_deps c = Some true.

(** The number of [check_dependencies] calls in a trace. *)
Fixpoint probes (t : list event) : nat :=
  match t with
  | [] => O
  | CheckDependencies :: t' => S (probes t')
  | _ :: t' => probes t'
  end.

(** A backend whose tool is missing at the first probe and installed
    from the second on. *)
Definition late_backend : Lifecycle.Backend nat :=
  Lifecycle.mkBackend "LateClient"
    (fun n => match n with
              | O => (Raise SCMClientDependencyError, S n)
              | _ => (Ok tt, S n)
              end).

(** * Properties *)

(** ** Strings *)

Lemma startswith_iff (s p : string) :
  PyStr.startswith s p = true <-> exists rest, s = p ++ rest.
Proof.
  revert s; induction p as [|c p IH]; intros s; simpl.
  - split; [intros _; now exists s | reflexivity].
  - destruct s as [|d s].
    + split; [discriminate | intros [rest H]; discriminate].
    + rewrite andb_true_iff, Ascii.eqb_eq, IH. split.
      * intros [-> [rest ->]]. now exists rest.
      * intros [rest H]. injection H as -> ->. split; [reflexivity | now exists rest].
Qed.

Lemma truthy_iff (s : string) : PyStr.truthy s = true <-> s <> EmptyString.
Proof.
  destruct s; simpl; split; congruence.
Qed.

Lemma split_length (s : string) (c : ascii) :
  List.length (PyStr.split s c) = S (PyStr.count s c).
Proof.
  induction s as [|d s IH]; simpl; [reflexivity|].
  destruct (Ascii.eqb d c); simpl.
  - now rewrite IH.
  - destruct (PyStr.split s c); simpl in *; [discriminate | exact IH].
Qed.

Lemma append_assoc (a b c : string) : (a ++ b) ++ c = a ++ (b ++ c).
Proof.
  induction a; simpl; congruence.
Qed.

Lemma length_append (a b : string) :
  String.length (a ++ b) = (String.length a + String.length b)%nat.
Proof.
  induction a; simpl; congruence.
Qed.

Lemma join_app (l1 l2 : list string) :
  PyStr.join (l1 ++ l2) = PyStr.join l1 ++ PyStr.join l2.
Proof.
  induction l1 as [|g l1 IH]; simpl; [reflexivity|].
  now rewrite IH, append_assoc.
Qed.

Lemma append_empty_r (s : string) : s ++ EmptyString = s.
Proof.
  induction s; simpl; congruence.
Qed.

(** ** The regular expression of [_strip_p_num_slashes] *)

Lemma star_slashes (s : string) :
  Re.star is_slash Some s = Some (drop_slashes s).
Proof.
  induction s as [|c s IH]; simpl; [reflexivity|].
  destruct (is_slash c); [now rewrite IH | reflexivity].
Qed.

(** A match of [[^/]*/+] at the start of [s] is one strip. *)
Lemma match_here_strip_one (s : string) :
  Re.match_here strip_regex s = strip_one s.
Proof.
  unfold strip_regex. simpl.
  induction s as [|c s IH]; simpl; [reflexivity|].
  unfold not_slash, is_slash in *.
  destruct (Ascii.eqb c slash) eqn:E; simpl.
  - apply star_slashes.
  - rewrite IH. now destruct (strip_one s).
Qed.

Lemma drop_slashes_suffix (s : string) :
  exists run, s = run ++ drop_slashes s /\ all_slashes run = true /\
              starts_with_slash (drop_slashes s) = false.
Proof.
  induction s as [|c s (run & E & Hall & Hst)]; simpl.
  - now exists EmptyString.
  - destruct (is_slash c) eqn:Ec.
    + exists (String c run). simpl. rewrite Ec, Hall. repeat split; [congruence | exact Hst].
    + exists EmptyString. simpl. now rewrite Ec.
Qed.

(** What one strip takes off is a segment, and what it leaves does not
    start with [/]. *)
Lemma strip_one_some (s r : string) :
  strip_one s = Some r ->
  exists g, Segment g /\ s = g ++ r /\ starts_with_slash r = false.
Proof.
  revert r; induction s as [|c s IH]; intros r; simpl; [discriminate|].
  destruct (is_slash c) eqn:Ec.
  - intros [= <-].
    destruct (drop_slashes_suffix s) as (run & E & Hall & Hst).
    exists (String c run). split; [|split; [simpl; congruence | exact Hst]].
    exists EmptyString, (String c run). simpl. rewrite Ec, Hall.
    repeat split. discriminate.
  - intros H. destruct (IH r H) as (g & (name & run & -> & Hfree & Hne & Hall) & -> & Hst).
    exists (String c (name ++ run)). split; [|split; [reflexivity | exact Hst]].
    exists (String c name), run. repeat split; try assumption.
    unfold slash_free in *. simpl. unfold is_slash in Ec. now rewrite Ec, Hfree.
Qed.

Lemma strip_one_none (s : string) :
  strip_one s = None <-> slash_free s.
Proof.
  unfold slash_free. induction s as [|c s IH]; simpl; [tauto|].
  unfold is_slash. destruct (Ascii.eqb c slash); simpl; [split; discriminate | exact IH].
Qed.

Lemma segment_nonempty (g : string) : Segment g -> (0 < String.length g)%nat.
Proof.
  intros (name & run & -> & _ & Hne & _).
  rewrite length_append. destruct run; [congruence | simpl; lia].
Qed.

Lemma sub_scan_skip (p : Re.pattern) (repl : string) (limit : option nat)
    (pre rest : string) :
  Re.sub_scan p repl limit (String.length pre) (pre ++ rest)
  = Re.sub_scan p repl limit O rest.
Proof.
  induction pre as [|c pre IH]; simpl; [reflexivity | exact IH].
Qed.

Lemma sub_scan_slash_free (limit : option nat) (s : string) :
  slash_free s -> Re.sub_scan strip_regex "" limit O s = s.
Proof.
  induction s as [|c s IH]; intros Hfree.
  - now destruct limit as [[|n]|].
  - assert (Hs : slash_free s).
    { unfold slash_free in *. simpl in Hfree. lia. }
    apply strip_one_none in Hfree.
    rewrite <- match_here_strip_one in Hfree.
    destruct limit as [[|n]|]; [reflexivity | |];
      cbn [Re.sub_scan]; rewrite Hfree, (IH Hs); reflexivity.
Qed.

(** The scan with a budget of [n] replacements is [n] strips. *)
Lemma sub_scan_strip_n (n : nat) (s : string) :
  Re.sub_scan strip_regex "" (Some n) O s = strip_n n s.
Proof.
  remember (String.length s) as m eqn:Hm.
  revert n s Hm. induction m as [m IH] using lt_wf_ind. intros n s Hm.
  destruct n as [|n]; [now destruct s|].
  destruct s as [|c s]; [reflexivity|].
  cbn [Re.sub_scan strip_n]. rewrite match_here_strip_one.
  destruct (strip_one (String c s)) as [r|] eqn:E.
  - destruct (strip_one_some _ _ E) as (g & Hg & Eg & _).
    pose proof (segment_nonempty g Hg) as Hlen.
    destruct g as [|d g]; [simpl in Hlen; lia|].
    simpl in Eg. injection Eg as <- ->.
    replace (String.length (String c (g ++ r)) - String.length r)%nat
      with (S (String.length g))
      by (cbn [String.length]; rewrite length_append; lia).
    simpl Re.dec. simpl String.append.
    rewrite sub_scan_skip.
    apply (IH (String.length r)); [|reflexivity].
    subst m. simpl. rewrite length_append. lia.
  - apply strip_one_none in E.
    assert (Hs : slash_free s).
    { unfold slash_free in *. simpl in E. lia. }
    now rewrite (sub_scan_slash_free _ s Hs).
Qed.

Lemma re_sub_strip_n (f : string) (p_num : Z) :
  0 < p_num -> Re.sub strip_regex "" f p_num = strip_n (Z.to_nat p_num) f.
Proof.
  intros Hp. unfold Re.sub.
  destruct (p_num =? 0) eqn:E; [lia|]. apply sub_scan_strip_n.
Qed.

(** ** Segments *)

Lemma slash_free_no_start (s : string) :
  slash_free s -> starts_with_slash s = false.
Proof.
  unfold slash_free. destruct s as [|c s]; simpl; [reflexivity|].
  unfold is_slash. destruct (Ascii.eqb c slash); [discriminate | reflexivity].
Qed.

Lemma drop_slashes_run (run rest : string) :
  all_slashes run = true -> starts_with_slash rest = false ->
  drop_slashes (run ++ rest) = rest.
Proof.
  intros Hall Hst. induction run as [|c run IH]; simpl in *.
  - destruct rest as [|d rest]; simpl in *; [reflexivity | now rewrite Hst].
  - apply andb_true_iff in Hall as [Hc Hall]. rewrite Hc. now apply IH.
Qed.

Lemma strip_one_segment (g rest : string) :
  Segment g -> starts_with_slash rest = false ->
  strip_one (g ++ rest) = Some rest.
Proof.
  intros (name & run & -> & Hfree & Hne & Hall) Hst.
  rewrite append_assoc.
  induction name as [|c name IH]; simpl.
  - destruct run as [|d run]; [congruence|]. simpl in *.
    apply andb_true_iff in Hall as [Hd Hall]. rewrite Hd.
    now rewrite drop_slashes_run.
  - unfold slash_free in *. simpl in Hfree. unfold is_slash.
    destruct (Ascii.eqb c slash); [discriminate|]. now apply IH.
Qed.

Lemma strip_n_slash_free (n : nat) (s : string) :
  slash_free s -> strip_n n s = s.
Proof.
  intros H. apply strip_one_none in H.
  destruct n; simpl; [reflexivity | now rewrite H].
Qed.

Lemma strip_n_well_split (segs : list string) (final : string) (n : nat) :
  well_split segs final ->
  strip_n n (PyStr.join segs ++ final) = PyStr.join (skipn n segs) ++ final.
Proof.
  revert n; induction segs as [|g gs IH]; intros n; simpl.
  - intros Hfree. rewrite skipn_nil. now apply strip_n_slash_free.
  - intros (Hg & Hst & Hw). destruct n as [|n]; [reflexivity|].
    simpl. rewrite append_assoc, (strip_one_segment _ _ Hg Hst). now apply IH.
Qed.

Lemma well_split_segments (segs : list string) (final : string) :
  well_split segs final -> Forall Segment segs.
Proof.
  induction segs as [|g gs IH]; simpl; [constructor|].
  intros (Hg & _ & Hw). constructor; auto.
Qed.

Lemma segment_cons (c : ascii) (g : string) :
  Segment g -> (is_slash c = true -> starts_with_slash g = true) ->
  Segment (String c g).
Proof.
  intros (name & run & -> & Hfree & Hne & Hall) Hc.
  destruct (is_slash c) eqn:Ec.
  - specialize (Hc eq_refl). destruct name as [|d name].
    + exists EmptyString, (String c run). simpl. rewrite Ec, Hall.
      repeat split. discriminate.
    + simpl in Hc. unfold slash_free in Hfree. simpl in Hfree.
      unfold is_slash in Hc. rewrite Hc in Hfree. discriminate.
  - exists (String c name), run. repeat split; try assumption.
    unfold slash_free in *. simpl. unfold is_slash in Ec. now rewrite Ec.
Qed.

(** [decompose] splits every name well, and loses nothing. *)
Lemma decompose_well_split (s : string) :
  well_split (path_segments s) (final_component s) /\
  PyStr.join (path_segments s) ++ final_component s = s.
Proof.
  unfold path_segments, final_component.
  induction s as [|c s [Hw Hj]]; simpl.
  - split; reflexivity.
  - destruct (decompose s) as [segs final]. simpl in Hw, Hj.
    destruct (is_slash c && negb (starts_with_slash s)) eqn:E; simpl.
    + apply andb_true_iff in E as [Ec Es]. apply negb_true_iff in Es.
      split; [|now rewrite Hj]. repeat split; [|now rewrite Hj | exact Hw].
      exists EmptyString, (String c EmptyString). simpl. rewrite Ec.
      repeat split. discriminate.
    + destruct segs as [|g gs]; simpl in *.
      * split; [|now rewrite Hj]. subst s.
        rewrite (slash_free_no_start _ Hw), andb_true_r in E.
        unfold slash_free in *. simpl. unfold is_slash in E. now rewrite E.
      * destruct Hw as (Hg & Hst & Hw). split; [|now rewrite Hj].
        repeat split; try assumption.
        apply segment_cons; [exact Hg|]. intros Ec.
        rewrite Ec in E. simpl in E. apply negb_false_iff in E.
        subst s. destruct g; [|exact E].
        apply segment_nonempty in Hg. simpl in Hg. lia.
Qed.

Lemma strip_n_strip_leading (n : nat) (f : string) :
  strip_n n f = strip_leading n f.
Proof.
  destruct (decompose_well_split f) as [Hw Hj].
  unfold strip_leading. rewrite <- (strip_n_well_split _ _ n Hw). now rewrite Hj.
Qed.

Lemma strip_leading_removes (n : nat) (f : string) :
  removes_exactly (Nat.min n (List.length (path_segments f))) f
    (strip_leading n f).
Proof.
  destruct (decompose_well_split f) as [Hw Hj].
  exists (firstn n (path_segments f)). split; [apply length_firstn|]. split.
  - apply well_split_segments in Hw.
    rewrite <- (firstn_skipn n (path_segments f)) in Hw.
    now apply Forall_app in Hw.
  - unfold strip_leading.
    rewrite <- append_assoc, <- join_app, firstn_skipn. now rewrite Hj.
Qed.

(** ** Prefix stripping *)

Lemma map_outcome_ok {A B : Type} (f : A -> outcome B) (g : A -> B)
    (l : list A) :
  (forall x, f x = Ok (g x)) -> map_outcome f l = Ok (map g l).
Proof.
  intros H. induction l as [|x l IH]; simpl; [reflexivity|].
  now rewrite H, IH.
Qed.

Lemma pattern_sub_in_range (p : Re.pattern) (repl s : string) (count : Z) :
  - PY_SSIZE_T_MAX - 1 <= count <= PY_SSIZE_T_MAX ->
  pattern_sub p repl s count = Ok (Re.sub p repl s count).
Proof.
  intros [H1 H2]. unfold pattern_sub.
  destruct (- PY_SSIZE_T_MAX - 1 <=? count) eqn:E1; [|lia].
  destruct (count <=? PY_SSIZE_T_MAX) eqn:E2; [reflexivity | lia].
Qed.

Lemma ssize_t_max_positive : 0 < PY_SSIZE_T_MAX.
Proof.
  reflexivity.
Qed.

(** Within the range of a C [ssize_t] a positive count strips every
    name. *)
Lemma strip_in_range (files : list string) (p_num : Z) :
  0 < p_num -> p_num <= PY_SSIZE_T_MAX ->
  _strip_p_num_slashes files p_num
  = Ok (map (fun f => strip_n (Z.to_nat p_num) f) files).
Proof.
  intros Hp Hmax. unfold _strip_p_num_slashes.
  destruct (0 <? p_num) eqn:E; [|lia].
  apply map_outcome_ok. intros f.
  pose proof ssize_t_max_positive.
  rewrite pattern_sub_in_range by lia. now rewrite re_sub_strip_n.
Qed.

(** Beyond it the first name raises. *)
Lemma strip_overflow (files : list string) (p_num : Z) :
  PY_SSIZE_T_MAX < p_num ->
  _strip_p_num_slashes files p_num
  = match files with
    | [] => Ok []
    | _ :: _ => Raise OverflowError
    end.
Proof.
  intros Hmax. pose proof ssize_t_max_positive. unfold _strip_p_num_slashes.
  destruct (0 <? p_num) eqn:E; [|lia].
  destruct files as [|f files]; [reflexivity|]. simpl. unfold pattern_sub.
  destruct (p_num <=? PY_SSIZE_T_MAX) eqn:E2; [lia|].
  now rewrite andb_false_r.
Qed.

Lemma strip_not_positive (files : list string) (p_num : Z) :
  p_num <= 0 -> _strip_p_num_slashes files p_num = Ok files.
Proof.
  intros Hp. unfold _strip_p_num_slashes.
  destruct (0 <? p_num) eqn:E; [lia | reflexivity].
Qed.

(** C2, as stated, fails: with strip count 2 the name [c], which has no
    leading segment, comes back unchanged; two segments were not
    removed from it. *)
Lemma strip_short_name_counterexample :
  _strip_p_num_slashes ["c"] 2 = Ok ["c"] /\
  ~ Forall2 (removes_exactly 2) ["c"] ["c"].
Proof.
  split; [reflexivity|].
  intros H. inversion H as [|f r fs rs Hrem _]; subst.
  destruct Hrem as (removed & Hlen & Hseg & E).
  destruct removed as [|g1 [|g2 [|g3 gs]]]; try discriminate.
  inversion Hseg as [|? ? Hg1 Hseg']; subst.
  apply segment_nonempty in Hg1.
  apply (f_equal String.length) in E. simpl in E.
  rewrite !length_append in E. simpl in E. lia.
Qed.

(** C2, amended: a strip count of 0 or less returns the list unchanged;
    a positive strip count [p] that fits a C [ssize_t] (at most
    [sys.maxsize]) removes from each name its first [p] leading
    segments, a segment being a run of characters other than [/] with
    the whole run of [/] after it, and removes all of them from a name
    that has fewer than [p], leaving its final component; a larger
    strip count raises [OverflowError] at the first name (and returns
    the empty list for no names). *)
Theorem strip_p_num_slashes_spec (files : list string) (p_num : Z) :
  (p_num <= 0 -> _strip_p_num_slashes files p_num = Ok files) /\
  (0 < p_num -> p_num <= PY_SSIZE_T_MAX ->
   _strip_p_num_slashes files p_num
     = Ok (map (strip_leading (Z.to_nat p_num)) files) /\
   forall f,
     well_split (path_segments f) (final_component f) /\
     f = PyStr.join (path_segments f) ++ final_component f /\
     removes_exactly
       (Nat.min (Z.to_nat p_num) (List.length (path_segments f))) f
       (strip_leading (Z.to_nat p_num) f)) /\
  (PY_SSIZE_T_MAX < p_num ->
   _strip_p_num_slashes files p_num
   = match files with
     | [] => Ok []
     | _ :: _ => Raise OverflowError
     end).
Proof.
  split; [apply strip_not_positive|]. split; [|apply strip_overflow].
  intros Hp Hmax. split.
  - rewrite strip_in_range by assumption. f_equal.
    apply map_ext. intros f. apply strip_n_strip_leading.
  - intros f. destruct (decompose_well_split f) as [Hw Hj].
    repeat split; [exact Hw | now rewrite Hj | apply strip_leading_removes].
Qed.

Lemma strip_p_num_slashes_spec_witness :
  _strip_p_num_slashes ["x//y/z"; "a//b/c"] 0 = Ok ["x//y/z"; "a//b/c"] /\
  _strip_p_num_slashes ["x//y/z"; "a//b/c"] 2 = Ok ["z"; "c"] /\
  _strip_p_num_slashes ["x//y/z"; "a//b/c"] (2 ^ 63) = Raise OverflowError.
Proof.
  split; [|split].
  - destruct (strip_p_num_slashes_spec ["x//y/z"; "a//b/c"] 0) as [H _].
    apply H. lia.
  - destruct (strip_p_num_slashes_spec ["x//y/z"; "a//b/c"] 2) as (_ & H & _).
    destruct H as [H _]; [lia | discriminate | exact H].
  - destruct (strip_p_num_slashes_spec ["x//y/z"; "a//b/c"] (2 ^ 63))
      as (_ & _ & H).
    apply H. reflexivity.
Defined.

(** The two names of the claim split as it says, and strip to their
    final components. *)
Example strip_examples :
  decompose "a//b/c" = (["a//"; "b/"], "c") /\
  decompose "x//y/z" = (["x//"; "y/"], "z") /\
  _strip_p_num_slashes ["a//b/c"] 1 = Ok ["b/c"] /\
  _strip_p_num_slashes ["/usr/lib"; "a/b/"; "//"] 1
  = Ok ["usr/lib"; "b/"; ""] /\
  _strip_p_num_slashes [] (2 ^ 63) = Ok [].
Proof.
  repeat split.
Qed.

(** ** [apply_patch] *)

Lemma py_or_not_none (p : pyval) (d : Z) : py_or p (PInt d) <> PNone.
Proof.
  unfold py_or. destruct p; simpl; try discriminate.
  - destruct (PyStr.truthy s); discriminate.
  - destruct (negb (z =? 0)); discriminate.
Qed.

Lemma py_int_or_no_type_error (w : World) (p : pyval) (d : Z) :
  py_int w (py_or p (PInt d)) <> IntTypeError.
Proof.
  pose proof (py_or_not_none p d) as H.
  destruct (py_or p (PInt d)); simpl; [congruence | | discriminate].
  destruct (int_of_str w s); discriminate.
Qed.








(** The exact only-garbage message is not fatal by itself: it is when
    the backend has no empty files to handle, and is not when it does
    not support empty files at all. *)
Example only_garbage_outcomes :
  fst (apply_patch (sample_world 2 only_garbage_in_patch true (inl ""))
         "fix.diff" "" "" (PStr "1") false)
  = Raise (SCMError ("Failed to execute command: "
                     ++ "['patch', '-p1', '-i', 'fix.diff']" ++ newline
                     ++ only_garbage_in_patch)) /\
  fst (apply_patch (sample_world 2 only_garbage_in_patch false (inl ""))
         "fix.diff" "" "" (PStr "1") false)
  = Ok (Some (mkPatchResult false only_garbage_in_patch)).
Proof.
  split; reflexivity.
Qed.

(** Case analysis on what [apply_patch] consults after it has built its
    command. *)
Ltac patch_branches :=
  repeat match goal with
         | |- context [match execute ?w ?c with _ => _ end] =>
             destruct (execute w c)
         | |- context [if ?b then _ else _] => destruct b
         | |- context [match read_file ?w ?f with _ => _ end] =>
             destruct (read_file w f)
         | |- context [match apply_patch_for_empty_files ?w ?a ?b ?c
                       with _ => _ end] =>
             destruct (apply_patch_for_empty_files w a b c)
         end.

(** [apply_patch] hands exactly one command to [execute]: the one
    [patch_argv] describes. *)
Lemma apply_patch_executed (w : World)
    (patch_file base_path base_dir : string) (p : pyval) (revert : bool) :
  executed (snd (apply_patch w patch_file base_path base_dir p revert))
  = [patch_argv w patch_file base_path base_dir p revert].
Proof.
  pose proof (py_int_or_no_type_error w p (_get_p_number base_path base_dir)) as Hty.
  unfold apply_patch, patch_argv. cbv [bind ret raise emit lift].
  destruct (py_int w (py_or p (PInt (_get_p_number base_path base_dir))))
    as [z| |]; [| |congruence].
  - destruct (0 <=? z); destruct revert; cbn [app];
      patch_branches; reflexivity.
  - change (0 <=? 0) with true. destruct revert; cbn [app];
      patch_branches; reflexivity.
Qed.

Lemma py_or_truthy (p d : pyval) : py_truthy p = true -> py_or p d = p.
Proof.
  unfold py_or. now intros ->.
Qed.

(** Without an explicit [p] the strip count is the derived one, and the
    sentinel -1 keeps [-p] out of the command. *)
Lemma patch_argv_derived (w : World)
    (patch_file base_path base_dir : string) (revert : bool) :
  patch_argv w patch_file base_path base_dir PNone revert
  = ((if revert then ["patch"; "-R"] else ["patch"]) ++
     (if 0 <=? _get_p_number base_path base_dir
      then [p_flag (_get_p_number base_path base_dir)] else []) ++
     ["-i"; patch_file])%list.
Proof.
  reflexivity.
Qed.

(** ** The strip count *)

(** C1, as stated, fails: for the base path [a/b], which has the two
    segments [a] and [b], and the working subpath [a/b/c],
    [_get_p_number] does not return the number of segments plus one
    (3); it returns 2. *)
Lemma get_p_number_not_segments_plus_one :
  _get_p_number "a/b" "a/b/c" = 2 /\
  _get_p_number "a/b" "a/b/c"
    <> Z.of_nat (List.length (PyStr.split "a/b" slash)) + 1.
Proof.
  split; [reflexivity | discriminate].
Qed.

(** C1, amended: for a non-empty base path that the working subpath
    starts with, [_get_p_number] returns the number of [/] in the base
    path plus one, which is the number of its [/]-separated segments;
    for every other pair (empty base path, or a subpath that does not
    start with the base path) it returns -1, and with that value and
    no explicit [p] the patch command gets no [-p] argument. *)
Theorem get_p_number_spec (base_path base_dir : string) :
  (base_path <> EmptyString ->
   (exists rest, base_dir = base_path ++ rest) ->
   _get_p_number base_path base_dir
     = Z.of_nat (PyStr.count base_path slash) + 1 /\
   _get_p_number base_path base_dir
     = Z.of_nat (List.length (PyStr.split base_path slash))) /\
  (base_path = EmptyString \/
   ~ (exists rest, base_dir = base_path ++ rest) ->
   _get_p_number base_path base_dir = -1 /\
   forall w patch_file revert,
     executed (snd (apply_patch w patch_file base_path base_dir PNone revert))
     = [((if revert then ["patch"; "-R"] else ["patch"])
           ++ ["-i"; patch_file])%list]).
Proof.
  split.
  - unfold _get_p_number. intros Hne Hpre.
    apply truthy_iff in Hne. apply startswith_iff in Hpre.
    rewrite Hne, Hpre, split_length. simpl. split; lia.
  - intros H.
    assert (E : _get_p_number base_path base_dir = -1).
    { unfold _get_p_number. destruct H as [-> | Hno]; [reflexivity|].
      destruct (PyStr.startswith base_dir base_path) eqn:E.
      - apply startswith_iff in E. contradiction.
      - now rewrite andb_false_r. }
    split; [exact E|]. intros w patch_file revert.
    now rewrite apply_patch_executed, patch_argv_derived, E.
Qed.

Lemma get_p_number_spec_witness :
  _get_p_number "a/b" "a/b/c" = 2 /\
  (_get_p_number "a/b" "a/x" = -1 /\
   executed (snd (apply_patch (sample_world 0 "" false (inl ""))
                    "fix.diff" "a/b" "a/x" PNone false))
   = [["patch"; "-i"; "fix.diff"]]).
Proof.
  split.
  - destruct (get_p_number_spec "a/b" "a/b/c") as [H _].
    destruct H as [H _]; [discriminate | now exists "/c" | exact H].
  - destruct (get_p_number_spec "a/b" "a/x") as [_ H].
    destruct H as [H1 H2].
    + right. intros [rest E]. simpl in E. discriminate.
    + split; [exact H1 | apply H2].
Defined.

(** ** [apply_patch]: an explicit strip count *)

(** C5, as stated, fails: an explicitly supplied empty string (and an
    explicitly supplied integer 0) does not override the derivation;
    the [-p] argument is the one [_get_p_number] gives for the paths
    (2 for [a/b] and [a/b/c], none for the sentinel). *)
Lemma falsy_p_uses_derivation :
  let w := sample_world 0 "" false (inl "") in
  _get_p_number "a/b" "a/b/c" = 2 /\
  executed (snd (apply_patch w "fix.diff" "a/b" "a/b/c" (PStr "") false))
    = [["patch"; "-p2"; "-i"; "fix.diff"]] /\
  executed (snd (apply_patch w "fix.diff" "" "" (PStr "") false))
    = [["patch"; "-i"; "fix.diff"]] /\
  executed (snd (apply_patch w "fix.diff" "a/b" "a/b/c" (PInt 0) false))
    = [["patch"; "-p2"; "-i"; "fix.diff"]].
Proof.
  repeat split.
Qed.

(** A supplied [p] that is false in Python is treated like an absent
    one. *)
Lemma falsy_p_like_absent (w : World)
    (patch_file base_path base_dir : string) (p : pyval) (revert : bool) :
  py_truthy p = false ->
  apply_patch w patch_file base_path base_dir p revert
  = apply_patch w patch_file base_path base_dir PNone revert.
Proof.
  intros Hp. unfold apply_patch, py_or. now rewrite Hp.
Qed.

(** C5, amended: an explicitly supplied [p] that is true in Python (a
    non-empty string, a non-zero integer) overrides the derivation:
    the call does not depend on [base_path] and [base_dir], and the
    command has [-pN] when [p] reads as the number N >= 0, [-p0] when
    [p] does not read as a number, and no [-p] when it reads as a
    negative number. *)
Theorem explicit_p_overrides (w : World)
    (patch_file base_path base_dir : string) (p : pyval) (revert : bool) :
  py_truthy p = true ->
  (forall base_path' base_dir',
     apply_patch w patch_file base_path base_dir p revert
     = apply_patch w patch_file base_path' base_dir' p revert) /\
  executed (snd (apply_patch w patch_file base_path base_dir p revert))
  = [((if revert then ["patch"; "-R"] else ["patch"]) ++
      match py_int w p with
      | IntOk z => if 0 <=? z then [p_flag z] else []
      | IntValueError => [p_flag 0]
      | IntTypeError => []
      end ++ ["-i"; patch_file])%list].
Proof.
  intros Hp. split.
  - intros base_path' base_dir'. unfold apply_patch.
    now rewrite !(py_or_truthy p _ Hp).
  - rewrite apply_patch_executed. unfold patch_argv.
    now rewrite (py_or_truthy p _ Hp).
Qed.

Lemma explicit_p_overrides_witness :
  let w := sample_world 0 "" false (inl "") in
  executed (snd (apply_patch w "fix.diff" "a/b" "a/b/c" (PStr "1") true))
  = [["patch"; "-R"; "-p1"; "-i"; "fix.diff"]].
Proof.
  intros w.
  exact (proj2 (explicit_p_overrides w "fix.diff" "a/b" "a/b/c" (PStr "1")
                  true eq_refl)).
Defined.

(** C10, as stated, fails: the empty string does not read as an
    integer, yet no warning is logged and the command carries the
    derived [-p2], not [-p0]. *)
Lemma empty_p_not_treated_as_zero :
  let w := sample_world 0 "" false (inl "") in
  int_of_str w "" = None /\
  snd (apply_patch w "fix.diff" "a/b" "a/b/c" (PStr "") false)
    = [Exec ["patch"; "-p2"; "-i"; "fix.diff"]].
Proof.
  split; reflexivity.
Qed.

(** C10, amended: for a supplied [p] that is a non-empty string which
    does not read as an integer, the parse failure is caught: the call
    logs the warning, takes the strip count as 0 and goes on to invoke
    the patch command with [-p0]; nothing else is executed. *)
Theorem unparsable_p_is_zero (w : World)
    (patch_file base_path base_dir s : string) (revert : bool) :
  s <> EmptyString -> int_of_str w s = None ->
  exists rest,
    snd (apply_patch w patch_file base_path base_dir (PStr s) revert)
    = Log Warning "Invalid -p value: %s; assuming zero." [AInt 0]
      :: Exec ((if revert then ["patch"; "-R"] else ["patch"])
                 ++ ["-p0"; "-i"; patch_file])%list
      :: rest /\
    executed rest = [].
Proof.
  intros Hs Hint. apply truthy_iff in Hs.
  unfold apply_patch. rewrite (py_or_truthy (PStr s) _ Hs).
  unfold py_int. rewrite Hint. cbv [bind ret raise emit lift].
  change (0 <=? 0) with true. change (p_flag 0) with "-p0".
  destruct revert; cbn [app]; patch_branches; cbn [snd app];
    eexists; split; reflexivity.
Qed.

Lemma unparsable_p_is_zero_witness :
  let w := sample_world 0 "" false (inl "") in
  exists rest,
    snd (apply_patch w "fix.diff" "a/b" "a/b/c" (PStr "abc") false)
    = Log Warning "Invalid -p value: %s; assuming zero." [AInt 0]
      :: Exec ["patch"; "-p0"; "-i"; "fix.diff"] :: rest /\
    executed rest = [].
Proof.
  intros w.
  apply (unparsable_p_is_zero w "fix.diff" "a/b" "a/b/c" "abc" false);
    [discriminate | reflexivity].
Defined.

(** ** [apply_patch]: a patch file that cannot be read back *)

(** With a backend that supports empty files, a patch step that ran
    and a patch file that cannot be read back, the failure is logged
    and nothing is raised, and the call returns [None]. *)
Lemma apply_patch_unreadable (w : World)
    (patch_file base_path base_dir : string) (p : pyval) (revert : bool)
    (rc : Z) (out msg : string) :
  execute w (patch_argv w patch_file base_path base_dir p revert)
    = Returned rc out ->
  PyStr.truthy out && PyStr.startswith out fatal_preamble
    && negb (String.eqb out only_garbage_in_patch) = false ->
  supports_empty_files w = true ->
  read_file w patch_file = inr msg ->
  fst (apply_patch w patch_file base_path base_dir p revert) = Ok None /\
  In (Log Error "Unable to read file %s: %s"
        [AStr patch_file; AExn (IOError msg)])
     (snd (apply_patch w patch_file base_path base_dir p revert)).
Proof.
  intros Hexec Hpre Hsup Hread.
  pose proof (py_int_or_no_type_error w p (_get_p_number base_path base_dir)) as Hty.
  unfold apply_patch, patch_argv in *. cbv [bind ret raise emit lift].
  destruct (py_int w (py_or p (PInt (_get_p_number base_path base_dir))))
    as [z| |]; [| |congruence].
  - destruct (0 <=? z); destruct revert; cbn [app] in *;
      rewrite Hexec, Hpre, Hsup, Hread; cbn; repeat split; auto.
  - change (0 <=? 0) with true. destruct revert; cbn [app] in *;
      rewrite Hexec, Hpre, Hsup, Hread; cbn; repeat split; auto.
Qed.

(** C4 does not hold of the code: [patch] exits with 0, the backend
    supports empty files and reading the patch file back raises
    [IOError]; the failure is logged and nothing is raised, but the
    call returns [None] (a bare [return]), not a [PatchResult] with
    [applied = False] as the docstring of [apply_patch] promises. *)
Example apply_patch_unreadable_returns_none :
  apply_patch
    (sample_world 0 "patching file README" true (inr "Permission denied"))
    "fix.diff" "" "" (PStr "1") false
  = (Ok None,
     [Exec ["patch"; "-p1"; "-i"; "fix.diff"];
      Log Error "Unable to read file %s: %s"
        [AStr "fix.diff"; AExn (IOError "Permission denied")]]).
Proof.
  reflexivity.
Qed.

(** ** Set-up *)

Section LifecycleFacts.
Import Lifecycle.
Context {S : Type} (b : Backend S).

Lemma setup_ok_ready (c c' : Client S) (t : list event) :
  setup b c = (Ok tt, c', t) -> is_setup c' = true.
Proof.
  unfold setup. destruct (is_setup c) eqn:E.
  - now intros [= <- _].
  - destruct (check_dependencies b (sub c)) as [[[]|e] s'].
    + now intros [= <- _].
    + destruct e; discriminate.
Qed.

Lemma setup_failure_cached (c c' : Client S) (t : list event) :
  setup b c = (Raise SCMClientDependencyError, c', t) ->
  _has_deps c' = Some false /\ t = [CheckDependencies].
Proof.
  unfold setup. destruct (is_setup c); [discriminate|].
  destruct (check_dependencies b (sub c)) as [[[]|e] s']; [discriminate|].
  destruct e; intros [= <- <-]; split; try reflexivity; discriminate.
Qed.

Lemma has_dependencies_cached (c : Client S) (v : bool) (flag : bool) :
  _has_deps c = Some v -> has_dependencies b c flag = (Ok (Some v), c, []).
Proof.
  unfold has_dependencies. now intros ->.
Qed.

Lemma setup_ready_returns (c : Client S) :
  is_setup c = true -> setup b c = (Ok tt, c, []).
Proof.
  unfold setup. now intros ->.
Qed.

(** A [setup] that succeeded makes the next one a no-op. *)
Corollary setup_twice (c c' : Client S) (t : list event) :
  setup b c = (Ok tt, c', t) -> setup b c' = (Ok tt, c', []).
Proof.
  intros H. apply setup_ready_returns. exact (setup_ok_ready _ _ _ H).
Qed.

(** C8: [setup] on a client that is set up returns at once: the client
    is unchanged and [check_dependencies] is not called (the trace is
    empty); so does every further [setup] after it. *)
Theorem setup_idempotent (c : Client S) :
  is_setup c = true ->
  setup b c = (Ok tt, c, []) /\
  forall c' t, setup b c = (Ok tt, c', t) -> setup b c' = (Ok tt, c', []).
Proof.
  intros H. split; [now apply setup_ready_returns | apply setup_twice].
Qed.

(** C9, amended: after a [setup] that raised
    [SCMClientDependencyError], every [has_dependencies] call of a later
    run in which [setup] is not called again returns [False], leaves
    the client as it is and does not call [check_dependencies] (the
    trace of the run is empty). *)
Theorem dependency_failure_cached (c c' : Client S) (t : list event)
    (flags : list bool) :
  setup b c = (Raise SCMClientDependencyError, c', t) ->
  has_dependencies_calls b c' flags
  = (map (fun _ => Some false) flags, c', []).
Proof.
  intros H. apply setup_failure_cached in H as [H _].
  induction flags as [|f flags IH]; simpl; [reflexivity|].
  now rewrite (has_dependencies_cached c' false f H), IH.
Qed.

End LifecycleFacts.

Lemma setup_idempotent_witness :
  let c := snd (fst (Lifecycle.setup installed_backend (Lifecycle.init O))) in
  Lifecycle.sub c = 1%nat /\
  Lifecycle.setup installed_backend c = (Ok tt, c, []).
Proof.
  intros c. split; [reflexivity|].
  apply (setup_idempotent installed_backend c). reflexivity.
Defined.

Lemma dependency_failure_cached_witness :
  let c := snd (fst (Lifecycle.setup missing_backend (Lifecycle.init O))) in
  Lifecycle.has_dependencies_calls missing_backend c [false; true; false]
  = ([Some false; Some false; Some false], c, []).
Proof.
  intros c.
  apply (dependency_failure_cached missing_backend (Lifecycle.init O) c
           [CheckDependencies] [false; true; false]).
  reflexivity.
Defined.

(** C9, as the claim has it, fails: the first [setup] raises
    [SCMClientDependencyError] and records the failure; a second
    [setup] on the same client calls [check_dependencies] again, which
    now passes, and the [has_dependencies] call after it returns
    [True]. *)
Lemma later_setup_replaces_cached_failure :
  let failed := snd (fst (Lifecycle.setup late_backend (Lifecycle.init O))) in
  let ready := snd (fst (Lifecycle.setup late_backend failed)) in
  Lifecycle.setup late_backend (Lifecycle.init O)
  = (Raise SCMClientDependencyError, failed, [CheckDependencies]) /\
  Lifecycle._has_deps failed = Some false /\
  Lifecycle.has_dependencies late_backend failed false
  = (Ok (Some false), failed, []) /\
  Lifecycle.setup late_backend failed = (Ok tt, ready, [CheckDependencies]) /\
  Lifecycle.has_dependencies late_backend ready false
  = (Ok (Some true), ready, []).
Proof.
  intros failed ready.
  split; [reflexivity|]. split; [reflexivity|]. split; [reflexivity|].
  split; reflexivity.
Qed.

(** The first availability check probes once and caches either answer. *)
Example has_dependencies_probes_once :
  Lifecycle.has_dependencies_calls missing_backend (Lifecycle.init O)
    [true; false]
  = ([Some false; Some false],
     Lifecycle.mkClient false (Some false) 1%nat,
     [DeprecationWarning "MissingClient"; CheckDependencies]) /\
  Lifecycle.has_dependencies_calls installed_backend (Lifecycle.init O)
    [false; false]
  = ([Some true; Some true],
     Lifecycle.mkClient true (Some true) 1%nat, [CheckDependencies]).
Proof.
  split; reflexivity.
Qed.

(** ** Perforce: two revisions *)

(** The resolver on the inputs of [test_parse_revision_spec_two_args]. *)
Example two_args_test :
  Perforce.parse_revision_spec Perforce.two_args_status ["99"; "100"]
  = Ok (Perforce.mkRange (Perforce.Concrete "99") (Perforce.Concrete "100")) /\
  Forall (fun revs => Perforce.parse_revision_spec Perforce.two_args_status revs
                      = Raise InvalidRevisionSpecError)
    [["99"; "101"]; ["99"; "102"]; ["101"; "100"]; ["102"; "100"];
     ["102"; "10284"]].
Proof.
  split; [reflexivity | repeat constructor].
Qed.

(** C6: two tokens that both name submitted changelists, the first
    numerically at most the second, resolve to the range from the first
    to the second; two tokens out of order, or one of which names a
    pending or shelved changelist, raise [InvalidRevisionSpecError]. *)
Theorem two_revisions_resolution (change_status : string -> option Perforce.status)
    (t1 t2 : string) :
  (forall n1 n2,
     change_status t1 = Some Perforce.Submitted ->
     change_status t2 = Some Perforce.Submitted ->
     Perforce.cln_number t1 = Some n1 ->
     Perforce.cln_number t2 = Some n2 ->
     n1 <= n2 ->
     Perforce.parse_revision_spec change_status [t1; t2]
     = Ok (Perforce.mkRange (Perforce.Concrete t1) (Perforce.Concrete t2))) /\
  ((exists n1 n2,
      Perforce.cln_number t1 = Some n1 /\
      Perforce.cln_number t2 = Some n2 /\ n2 < n1) \/
   change_status t1 = Some Perforce.Pending \/
   change_status t1 = Some Perforce.Shelved \/
   change_status t2 = Some Perforce.Pending \/
   change_status t2 = Some Perforce.Shelved ->
   Perforce.parse_revision_spec change_status [t1; t2]
   = Raise InvalidRevisionSpecError).
Proof.
  unfold Perforce.parse_revision_spec. split.
  - intros n1 n2 -> -> -> -> H.
    destruct (n1 <=? n2) eqn:E; [reflexivity | lia].
  - intros [(n1 & n2 & -> & -> & H) | [H | [H | [H | H]]]].
    + destruct (n1 <=? n2) eqn:E; [lia|].
      destruct (change_status t1) as [[]|]; try reflexivity.
      destruct (change_status t2) as [[]|]; reflexivity.
    + now rewrite H.
    + now rewrite H.
    + rewrite H. now destruct (change_status t1) as [[]|].
    + rewrite H. now destruct (change_status t1) as [[]|].
Qed.

Lemma two_revisions_resolution_witness :
  Perforce.parse_revision_spec Perforce.two_args_status ["99"; "100"]
  = Ok (Perforce.mkRange (Perforce.Concrete "99") (Perforce.Concrete "100")) /\
  Perforce.parse_revision_spec Perforce.two_args_status ["100"; "99"]
  = Raise InvalidRevisionSpecError /\
  Perforce.parse_revision_spec Perforce.two_args_status ["99"; "102"]
  = Raise InvalidRevisionSpecError.
Proof.
  split; [|split].
  - apply (proj1 (two_revisions_resolution Perforce.two_args_status "99" "100")
             99 100); try reflexivity. lia.
  - apply (proj2 (two_revisions_resolution Perforce.two_args_status "100" "99")).
    left. exists 100, 99. split; [reflexivity | split; [reflexivity | lia]].
  - apply (proj2 (two_revisions_resolution Perforce.two_args_status "99" "102")).
    right. right. right. right. reflexivity.
Defined.

(** ** Perforce: moved files *)

Section MoveFacts.
Import Perforce.

(** The synthesizer on the data of [_test_diff_with_moved_files] and
    of [test_diff_with_pending_changelist] gives the diffs the tests
    expect. *)
Example moved_files_cap_on :
  synthesize MovedFilesTest.env true MovedFilesTest.repo_files
  = "Moved from: //mydepot/test/README" ++ newline
    ++ "Moved to: //mydepot/test/README-new" ++ newline
    ++ "--- //mydepot/test/README" ++ tab ++ "//mydepot/test/README#2"
    ++ newline
    ++ "+++ //mydepot/test/README-new" ++ tab ++ "2022-01-02 12:34:56"
    ++ newline
    ++ "@@ -1 +1 @@" ++ newline
    ++ "-This is a test." ++ newline
    ++ "+This is a mess." ++ newline
    ++ "==== //mydepot/test/COPYING#2 ==MV== "
    ++ "//mydepot/test/COPYING-new ====" ++ newline
    ++ newline.
Proof.
  reflexivity.
Qed.

Example pending_changelist_diff :
  synthesize PendingTest.env false PendingTest.opened
  = "--- //mydepot/test/README" ++ tab ++ "//mydepot/test/README#2"
    ++ newline
    ++ "+++ //mydepot/test/README" ++ tab ++ "2022-01-02 12:34:56"
    ++ newline
    ++ "@@ -1 +1 @@" ++ newline
    ++ "-This is a test." ++ newline
    ++ "+This is a mess." ++ newline
    ++ "--- //mydepot/test/COPYING" ++ tab ++ "//mydepot/test/COPYING#0"
    ++ newline
    ++ "+++ //mydepot/test/COPYING" ++ tab ++ "2022-01-02 12:34:56"
    ++ newline
    ++ "@@ -0,0 +1 @@" ++ newline
    ++ "+Copyright 2013 Joe User." ++ newline
    ++ "--- //mydepot/test/Makefile" ++ tab ++ "//mydepot/test/Makefile#3"
    ++ newline
    ++ "+++ //mydepot/test/Makefile" ++ tab ++ "2022-01-02 12:34:56"
    ++ newline
    ++ "@@ -1 +0,0 @@" ++ newline
    ++ "-all: all" ++ newline
  /\ synthesize PendingTest.env true PendingTest.opened
     = synthesize PendingTest.env false PendingTest.opened.
Proof.
  split; reflexivity.
Qed.

Example moved_files_cap_off :
  synthesize MovedFilesTest.env false MovedFilesTest.repo_files
  = "--- //mydepot/test/README" ++ tab ++ "//mydepot/test/README#2"
    ++ newline
    ++ "+++ //mydepot/test/README" ++ tab ++ "2022-01-02 12:34:56"
    ++ newline
    ++ "@@ -1 +0,0 @@" ++ newline
    ++ "-This is a test." ++ newline
    ++ "--- //mydepot/test/README-new" ++ tab
    ++ "//mydepot/test/README-new#0" ++ newline
    ++ "+++ //mydepot/test/README-new" ++ tab ++ "2022-01-02 12:34:56"
    ++ newline
    ++ "@@ -0,0 +1 @@" ++ newline
    ++ "+This is a mess." ++ newline
    ++ "--- //mydepot/test/COPYING" ++ tab ++ "//mydepot/test/COPYING#2"
    ++ newline
    ++ "+++ //mydepot/test/COPYING" ++ tab ++ "2022-01-02 12:34:56"
    ++ newline
    ++ "@@ -1 +0,0 @@" ++ newline
    ++ "-Copyright 2013 Joe User." ++ newline
    ++ "--- //mydepot/test/COPYING-new" ++ tab
    ++ "//mydepot/test/COPYING-new#0" ++ newline
    ++ "+++ //mydepot/test/COPYING-new" ++ tab ++ "2022-01-02 12:34:56"
    ++ newline
    ++ "@@ -0,0 +1 @@" ++ newline
    ++ "+Copyright 2013 Joe User." ++ newline.
Proof.
  reflexivity.
Qed.

Lemma move_target_inv (e : Env) (files : list ChangedFileRecord)
    (src dst : ChangedFileRecord) :
  move_target e files src = Some dst ->
  act src = MoveDelete /\ act dst = MoveAdd /\
  moved_file e (depot_path src) = Some (depot_path dst) /\ In dst files.
Proof.
  unfold move_target. destruct (act src); try discriminate.
  destruct (moved_file e (depot_path src)) as [d|]; [|discriminate].
  intros H. apply find_some in H as [Hin H].
  apply andb_true_iff in H as [H _]. apply andb_true_iff in H as [Ha Hd].
  apply String.eqb_eq in Hd. subst d.
  repeat split; [|exact Hin]. now destruct (act dst).
Qed.

Lemma replace_hunk_silent (a b : string) :
  MovedFilesTest.replace_hunk a b = EmptyString <-> a = b.
Proof.
  unfold MovedFilesTest.replace_hunk.
  destruct (String.eqb_spec a b); split; intros H; easy.
Qed.

(** C7, as stated, fails: in the changeset of the test the pair
    [COPYING] / [COPYING-new] is moved with its content unchanged;
    with the capability on, its one fragment is the [==MV==] line
    and carries no [Moved from] or [Moved to] annotation. *)
Lemma unchanged_move_has_no_moved_from :
  let src := mkRecord MovedFilesTest.copying "2" MoveDelete "12345" in
  let dst := mkRecord MovedFilesTest.copying_new "1" MoveAdd "12345" in
  move_target MovedFilesTest.env [src; dst] src = Some dst /\
  diff_fragments MovedFilesTest.env true [src; dst]
  = ["==== //mydepot/test/COPYING#2 ==MV== //mydepot/test/COPYING-new ===="
     ++ newline ++ newline] /\
  PyStr.contains (synthesize MovedFilesTest.env true [src; dst])
    "Moved from" = false /\
  PyStr.contains (synthesize MovedFilesTest.env true [src; dst])
    "Moved to" = false.
Proof.
  repeat split.
Qed.

(** C7, amended: for a [move_delete] record and the [move_add] record
    that the location metadata pairs with it, synthesis with move
    detection enabled gives one combined fragment, contributed by the
    source record (the destination record contributes none): the
    [Moved from:] and [Moved to:] lines followed by the file header
    and the hunks when the content changed, the single
    [==== src#rev ==MV== dst ====] line when it did not.  With move
    detection disabled the two records contribute one fragment each:
    the deletion of the whole old content under the old path and the
    addition of the whole new content under the new path, both
    starting with the file header, without any move annotation.  The
    textual diff is taken to be silent exactly on equal texts. *)
Theorem move_pair_fragments (e : Env) (files : list ChangedFileRecord)
    (src dst : ChangedFileRecord) :
  In src files ->
  move_target e files src = Some dst ->
  (forall a b, unified_hunks e a b = EmptyString <-> a = b) ->
  let old := depot_content e (depot_path src) (revision src) in
  let new := working_content e (depot_path dst) in
  (record_fragments e true files src = [move_fragment e src dst] /\
   record_fragments e true files dst = [] /\
   (old <> new ->
    move_fragment e src dst
    = move_annotation (depot_path src) (depot_path dst)
      ++ file_header e (depot_path src) (revision src) (depot_path dst)
      ++ unified_hunks e old new) /\
   (old = new ->
    move_fragment e src dst
    = move_marker (depot_path src) (revision src) (depot_path dst))) /\
  (record_fragments e false files src
   = [file_header e (depot_path src) (revision src) (depot_path src)
      ++ unified_hunks e old EmptyString] /\
   record_fragments e false files dst
   = [file_header e (depot_path dst) "0" (depot_path dst)
      ++ unified_hunks e EmptyString new]).
Proof.
  intros Hin Ht Hdiff old new.
  destruct (move_target_inv _ _ _ _ Ht) as (Hsrc & Hdst & Hlink & Hin').
  split; [split; [|split; [|split]] | split].
  - unfold record_fragments. now rewrite Ht.
  - unfold record_fragments.
    assert (Hnone : move_target e files dst = None)
      by (unfold move_target; now rewrite Hdst).
    rewrite Hnone.
    assert (Hpair : is_move_target e files dst = true).
    { unfold is_move_target. rewrite Hdst. simpl.
      apply existsb_exists. exists src. split; [exact Hin|].
      rewrite Ht. apply String.eqb_refl. }
    now rewrite Hpair.
  - intros Hne. unfold move_fragment. fold old new.
    destruct (unified_hunks e old new) eqn:E; [|reflexivity].
    apply (proj1 (Hdiff _ _)) in E. exfalso. apply Hne. exact E.
  - intros Heq. unfold move_fragment. fold old new.
    apply (proj2 (Hdiff _ _)) in Heq. now rewrite Heq.
  - unfold record_fragments, plain_fragment, old_snapshot, new_snapshot,
      base_revision. rewrite Hsrc. fold old.
    destruct (unified_hunks e old EmptyString) eqn:E; [|reflexivity].
    apply (proj1 (Hdiff _ _)) in E. rewrite E. simpl.
    now rewrite append_empty_r.
  - unfold record_fragments, plain_fragment, old_snapshot, new_snapshot,
      base_revision. rewrite Hdst. fold new.
    destruct (unified_hunks e EmptyString new) eqn:E; [|reflexivity].
    apply (proj1 (Hdiff _ _)) in E. rewrite <- E. simpl.
    now rewrite append_empty_r.
Qed.

End MoveFacts.

Lemma move_pair_fragments_witness :
  let e := Perforce.MovedFilesTest.env in
  let files := Perforce.MovedFilesTest.repo_files in
  let src := Perforce.mkRecord Perforce.MovedFilesTest.readme "2"
               Perforce.MoveDelete "12345" in
  let dst := Perforce.mkRecord Perforce.MovedFilesTest.readme_new "1"
               Perforce.MoveAdd "12345" in
  Perforce.record_fragments e true files src
  = [Perforce.move_fragment e src dst] /\
  Perforce.record_fragments e true files dst = [] /\
  List.length (Perforce.record_fragments e false files src
               ++ Perforce.record_fragments e false files dst) = 2%nat.
Proof.
  intros e files src dst.
  destruct (move_pair_fragments e files src dst) as [(H1 & H2 & _) [H3 H4]].
  - left. reflexivity.
  - reflexivity.
  - apply replace_hunk_silent.
  - split; [exact H1 | split; [exact H2|]]. now rewrite H3, H4.
Defined.

(** * Further properties of the strip-count helpers *)

Lemma count_append (a b : string) (c : ascii) :
  PyStr.count (a ++ b) c = (PyStr.count a c + PyStr.count b c)%nat.
Proof.
  induction a as [|d a IH]; simpl; [reflexivity | rewrite IH; lia].
Qed.

(** [_get_p_number] returns -1 or a number that is at least 1. *)
Lemma get_p_number_range (base_path base_dir : string) :
  _get_p_number base_path base_dir = -1 \/
  1 <= _get_p_number base_path base_dir.
Proof.
  unfold _get_p_number.
  destruct (PyStr.truthy base_path && PyStr.startswith base_dir base_path);
    [right; lia | left; reflexivity].
Qed.

Lemma strip_n_add (m n : nat) (s : string) :
  strip_n n (strip_n m s) = strip_n (m + n) s.
Proof.
  revert s; induction m as [|m IH]; intros s; simpl; [reflexivity|].
  destruct (strip_one s) as [r|] eqn:E; [apply IH|].
  destruct n as [|n]; simpl; [reflexivity | now rewrite E].
Qed.

(** X3: stripping composes: for positive counts whose sum fits a C
    [ssize_t], stripping [p] segments and then [q] more returns what
    stripping [p + q] segments at once returns. *)
Theorem strip_p_num_slashes_compose (files : list string) (p q : Z) :
  0 < p -> 0 < q -> p + q <= PY_SSIZE_T_MAX ->
  exists mid out,
    _strip_p_num_slashes files p = Ok mid /\
    _strip_p_num_slashes mid q = Ok out /\
    _strip_p_num_slashes files (p + q) = Ok out.
Proof.
  intros Hp Hq Hmax.
  exists (map (fun f => strip_n (Z.to_nat p) f) files).
  exists (map (fun f => strip_n (Z.to_nat (p + q)) f) files).
  rewrite !strip_in_range by lia. repeat split.
  f_equal. rewrite map_map. apply map_ext. intros f.
  rewrite strip_n_add. f_equal. lia.
Qed.

Lemma strip_p_num_slashes_compose_witness :
  exists mid out,
    _strip_p_num_slashes ["a//b/c/d"; "x/y"] 1 = Ok mid /\
    _strip_p_num_slashes mid 2 = Ok out /\
    _strip_p_num_slashes ["a//b/c/d"; "x/y"] (1 + 2) = Ok out.
Proof.
  apply (strip_p_num_slashes_compose ["a//b/c/d"; "x/y"] 1 2);
    [lia | lia | discriminate].
Defined.

Lemma strip_n_suffix (n : nat) (s : string) : suffix_of (strip_n n s) s.
Proof.
  revert s; induction n as [|n IH]; intros s; simpl.
  - now exists EmptyString.
  - destruct (strip_one s) as [r|] eqn:E; [|now exists EmptyString].
    destruct (strip_one_some _ _ E) as (g & _ & -> & _).
    destruct (IH r) as [pre Hpre]. exists (g ++ pre).
    rewrite append_assoc. now rewrite <- Hpre.
Qed.

(** X4: for a strip count that fits a C [ssize_t],
    [_strip_p_num_slashes] returns; and whenever it returns, the result
    has one name per input name, in the same order, and each is what is
    left of its input after a prefix: nothing is added, reordered or
    dropped. *)
Theorem strip_p_num_slashes_suffixes (files : list string) (p_num : Z) :
  (p_num <= PY_SSIZE_T_MAX ->
   exists out, _strip_p_num_slashes files p_num = Ok out) /\
  (forall out,
     _strip_p_num_slashes files p_num = Ok out -> Forall2 suffix_of out files).
Proof.
  assert (Hmap : forall n,
            Forall2 suffix_of (map (fun f => strip_n n f) files) files).
  { intros n. induction files as [|f fs IH]; simpl; constructor;
      [apply strip_n_suffix | exact IH]. }
  assert (Hid : Forall2 suffix_of files files).
  { clear Hmap. induction files as [|f fs IH]; constructor;
      [now exists EmptyString | exact IH]. }
  destruct (Z_le_gt_dec p_num 0) as [H0 | H0].
  - rewrite strip_not_positive by lia. split; [now eexists|].
    now intros out [= <-].
  - destruct (Z_le_gt_dec p_num PY_SSIZE_T_MAX) as [Hm | Hm].
    + rewrite strip_in_range by lia. split; [now eexists|].
      intros out [= <-]. apply Hmap.
    + rewrite strip_overflow by lia. split; [lia|].
      destruct files; [|discriminate]. intros out [= <-]. constructor.
Qed.

Lemma strip_p_num_slashes_suffixes_witness :
  exists out,
    _strip_p_num_slashes ["/usr/lib"; "a/b"] 1 = Ok out /\
    Forall2 suffix_of out ["/usr/lib"; "a/b"].
Proof.
  destruct (strip_p_num_slashes_suffixes ["/usr/lib"; "a/b"] 1) as [H1 H2].
  destruct H1 as [out Hout]; [discriminate|].
  exists out. split; [exact Hout | now apply H2].
Defined.

Lemma strip_n_no_leading_slash (n : nat) (s : string) :
  starts_with_slash (strip_n (S n) s) = false.
Proof.
  revert s; induction n as [|n IH]; intros s.
  - simpl. destruct (strip_one s) as [r|] eqn:E.
    + now destruct (strip_one_some _ _ E) as (g & _ & _ & H).
    + apply slash_free_no_start. now apply strip_one_none.
  - change (strip_n (S (S n)) s)
      with (match strip_one s with
            | Some r => strip_n (S n) r
            | None => s
            end).
    destruct (strip_one s) as [r|] eqn:E; [apply IH|].
    apply slash_free_no_start. now apply strip_one_none.
Qed.

(** X5: with a positive strip count that fits a C [ssize_t],
    [_strip_p_num_slashes] returns, and with a positive strip count no
    name it returns starts with [/]: an absolute name always loses its
    root. *)
Theorem strip_p_num_slashes_relative (files : list string) (p_num : Z) :
  0 < p_num ->
  (p_num <= PY_SSIZE_T_MAX ->
   exists out, _strip_p_num_slashes files p_num = Ok out) /\
  (forall out,
     _strip_p_num_slashes files p_num = Ok out ->
     Forall (fun r => starts_with_slash r = false) out).
Proof.
  intros Hp.
  destruct (Z_le_gt_dec p_num PY_SSIZE_T_MAX) as [Hm | Hm].
  - rewrite strip_in_range by lia. split; [now eexists|].
    intros out [= <-]. apply Forall_map, Forall_forall. intros f _.
    destruct (Z.to_nat p_num) as [|n] eqn:En; [lia|].
    apply strip_n_no_leading_slash.
  - rewrite strip_overflow by lia. split; [lia|].
    destruct files; [|discriminate]. intros out [= <-]. constructor.
Qed.

Lemma strip_p_num_slashes_relative_witness :
  exists out,
    _strip_p_num_slashes ["/usr/lib"; "//"; "a/b"; "c"] 1 = Ok out /\
    Forall (fun r => starts_with_slash r = false) out.
Proof.
  destruct (strip_p_num_slashes_relative ["/usr/lib"; "//"; "a/b"; "c"] 1)
    as [H1 H2]; [lia|].
  destruct H1 as [out Hout]; [discriminate|].
  exists out. split; [exact Hout | now apply H2].
Defined.

Lemma component_segment (c : string) : component c -> Segment (c ++ "/").
Proof.
  intros [_ Hfree]. exists c, "/". repeat split; [exact Hfree | discriminate].
Qed.

Lemma path_of_count (cs : list string) :
  Forall component cs -> cs <> [] ->
  S (PyStr.count (path_of cs) slash) = List.length cs.
Proof.
  induction cs as [|c cs IH]; intros Hall Hne; [congruence|].
  inversion Hall as [|? ? [_ Hc] Hcs]; subst.
  destruct cs as [|c' cs].
  - simpl. unfold slash_free in Hc. now rewrite Hc.
  - change (path_of (c :: c' :: cs)) with (c ++ "/" ++ path_of (c' :: cs)).
    rewrite !count_append. unfold slash_free in Hc. rewrite Hc.
    change (PyStr.count "/" slash) with 1%nat.
    change (List.length (c :: c' :: cs)) with (S (List.length (c' :: cs))).
    rewrite <- (IH Hcs) by discriminate. lia.
Qed.

Lemma path_of_nonempty (cs : list string) :
  Forall component cs -> cs <> [] -> path_of cs <> EmptyString.
Proof.
  intros Hall Hne. destruct cs as [|c cs]; [congruence|].
  inversion Hall as [|? ? [Hc _] _]; subst.
  destruct cs; simpl; destruct c; simpl; congruence.
Qed.

Lemma component_no_start (c rest : string) :
  component c -> starts_with_slash (c ++ rest) = false.
Proof.
  intros [Hne Hfree]. destruct c as [|x c]; [congruence|]. simpl.
  unfold slash_free in Hfree. simpl in Hfree. unfold is_slash.
  destruct (Ascii.eqb x slash); [discriminate | reflexivity].
Qed.

Lemma strip_n_path_of (cs : list string) (rest : string) :
  Forall component cs -> cs <> [] -> starts_with_slash rest = false ->
  strip_n (List.length cs) (path_of cs ++ "/" ++ rest) = rest.
Proof.
  induction cs as [|c cs IH]; intros Hall Hne Hrest; [congruence|].
  inversion Hall as [|? ? Hc Hcs]; subst.
  destruct cs as [|c' cs].
  - simpl path_of. simpl List.length.
    change (c ++ "/" ++ rest) with (c ++ ("/" ++ rest)).
    rewrite <- append_assoc. simpl strip_n.
    now rewrite (strip_one_segment _ _ (component_segment c Hc) Hrest).
  - change (path_of (c :: c' :: cs)) with (c ++ "/" ++ path_of (c' :: cs)).
    change (List.length (c :: c' :: cs)) with (S (List.length (c' :: cs))).
    cbn [strip_n].
    replace ((c ++ "/" ++ path_of (c' :: cs)) ++ "/" ++ rest)
      with ((c ++ "/") ++ (path_of (c' :: cs) ++ "/" ++ rest))
      by (now rewrite !append_assoc).
    rewrite (strip_one_segment _ _ (component_segment c Hc)).
    + apply IH; [exact Hcs | discriminate | exact Hrest].
    + inversion Hcs as [|? ? Hc' _]; subst.
      destruct cs; simpl path_of; [|rewrite append_assoc];
        now apply component_no_start.
Qed.

Lemma path_of_length (cs : list string) :
  Forall component cs ->
  (List.length cs <= String.length (path_of cs))%nat.
Proof.
  induction cs as [|c cs IH]; intros Hall; [simpl; lia|].
  inversion Hall as [|? ? [Hc _] Hcs]; subst.
  assert (0 < String.length c)%nat by (destruct c; [congruence | simpl; lia]).
  destruct cs as [|c' cs]; [simpl; lia|].
  change (path_of (c :: c' :: cs)) with (c ++ "/" ++ path_of (c' :: cs)).
  rewrite !length_append. specialize (IH Hcs).
  change (List.length (c :: c' :: cs)) with (S (List.length (c' :: cs))).
  lia.
Qed.

(** X2: the derived strip count strips the base path.  For a base path
    made of non-empty components joined by single [/] (a string Python
    can hold: not longer than [sys.maxsize]), and a working directory
    below it, stripping [_get_p_number] segments from a name recorded
    relative to the repository root as [base_path/rest] leaves
    [rest]. *)
Theorem derived_count_strips_base_path (components : list string)
    (below rest : string) :
  Forall component components -> components <> [] ->
  starts_with_slash rest = false ->
  let base_path := path_of components in
  Z.of_nat (String.length base_path) <= PY_SSIZE_T_MAX ->
  _strip_p_num_slashes [base_path ++ "/" ++ rest]
    (_get_p_number base_path (base_path ++ below))
  = Ok [rest].
Proof.
  intros Hall Hne Hrest base_path Hsize.
  assert (Hp : _get_p_number base_path (base_path ++ below)
               = Z.of_nat (List.length components)).
  { unfold _get_p_number.
    assert (Ht : PyStr.truthy base_path = true)
      by (apply truthy_iff; now apply path_of_nonempty).
    assert (Hs : PyStr.startswith (base_path ++ below) base_path = true)
      by (apply startswith_iff; now exists below).
    rewrite Ht, Hs. simpl. rewrite <- (path_of_count components Hall Hne).
    fold base_path. lia. }
  rewrite Hp.
  assert (Hlen : (0 < List.length components)%nat)
    by (destruct components; [congruence | simpl; lia]).
  pose proof (path_of_length components Hall) as Hle. fold base_path in Hle.
  rewrite strip_in_range by lia.
  cbn [map]. rewrite Nat2Z.id.
  unfold base_path. now rewrite strip_n_path_of.
Qed.

Lemma derived_count_strips_base_path_witness :
  _get_p_number "trunk/src" "trunk/src/lib" = 2 /\
  _strip_p_num_slashes ["trunk/src/lib/io.c"]
    (_get_p_number "trunk/src" "trunk/src/lib")
  = Ok ["lib/io.c"].
Proof.
  split; [reflexivity|].
  apply (derived_count_strips_base_path ["trunk"; "src"] "/lib" "lib/io.c").
  - repeat constructor; discriminate.
  - discriminate.
  - reflexivity.
  - discriminate.
Defined.

(** * Further properties of [apply_patch] *)

(** X1: without an explicit [p] the patch command never gets [-p0]:
    either the derived strip count is at least 1 and is passed as
    [-pN], or it is the sentinel -1, no [-p] is passed and the call
    logs the warning about an unsupported value -1. *)
Theorem derived_p_never_zero (w : World)
    (patch_file base_path base_dir : string) (revert : bool) :
  let n := _get_p_number base_path base_dir in
  let t := snd (apply_patch w patch_file base_path base_dir PNone revert) in
  let patch := if revert then ["patch"; "-R"] else ["patch"] in
  (1 <= n /\ executed t = [(patch ++ [p_flag n; "-i"; patch_file])%list]) \/
  (n = -1 /\ executed t = [(patch ++ ["-i"; patch_file])%list] /\
   In (Log Warning "Unsupported -p value: %d; assuming zero." [AInt (-1)]) t).
Proof.
  intros n t patch. subst t.
  rewrite apply_patch_executed, patch_argv_derived. fold n. fold patch.
  destruct (get_p_number_range base_path base_dir) as [E | E]; fold n in E.
  - right. rewrite E. repeat split.
    unfold apply_patch. fold n. rewrite E.
    cbv [bind ret raise emit lift py_or py_truthy py_int].
    change (0 <=? -1) with false.
    destruct revert; cbn [app]; patch_branches; left; reflexivity.
  - left. split; [exact E|].
    destruct (0 <=? n) eqn:En; [reflexivity | lia].
Qed.

(** X6: a [PatchResult] that [apply_patch] returns reports the run of
    the patch command as it was: [patch_output] is the captured output
    and [applied] holds exactly when the exit code is 0 (so not for
    the tolerated exit code 2). *)
Theorem patch_result_reflects_exit_code (w : World)
    (patch_file base_path base_dir : string) (p : pyval) (revert : bool)
    (r : PatchResult) :
  fst (apply_patch w patch_file base_path base_dir p revert) = Ok (Some r) ->
  exists rc,
    execute w (patch_argv w patch_file base_path base_dir p revert)
      = Returned rc (patch_output r) /\
    (applied r = true <-> rc = 0).
Proof.
  pose proof (py_int_or_no_type_error w p (_get_p_number base_path base_dir)) as Hty.
  unfold apply_patch, patch_argv. cbv [bind ret raise emit lift].
  assert (Hz : forall rc, (rc =? 0) = true <-> rc = 0) by (intros; lia).
  destruct (py_int w (py_or p (PInt (_get_p_number base_path base_dir))))
    as [z| |]; [| |congruence].
  - destruct (0 <=? z); destruct revert; cbn [app];
      match goal with
      | |- context [execute ?w ?c] =>
          destruct (execute w c) as [rc out|e]
      end;
      patch_branches; cbn [fst]; intros H; try discriminate;
      injection H as <-; exists rc; (split; [reflexivity | apply Hz]).
  - change (0 <=? 0) with true. destruct revert; cbn [app];
      match goal with
      | |- context [execute ?w ?c] =>
          destruct (execute w c) as [rc out|e]
      end;
      patch_branches; cbn [fst]; intros H; try discriminate;
      injection H as <-; exists rc; (split; [reflexivity | apply Hz]).
Qed.

Lemma patch_result_reflects_exit_code_witness :
  let w := sample_world 2 "1 out of 1 hunk FAILED" false (inl "") in
  exists rc,
    execute w (patch_argv w "fix.diff" "" "" (PStr "1") false)
      = Returned rc "1 out of 1 hunk FAILED" /\
    (false = true <-> rc = 0).
Proof.
  intros w.
  apply (patch_result_reflects_exit_code w "fix.diff" "" "" (PStr "1") false
           (mkPatchResult false "1 out of 1 hunk FAILED")).
  reflexivity.
Defined.

(** X7: the exact only-garbage output is an error only for a backend
    that supports empty files and finds none in the patch: a backend
    without empty-file support gets a [PatchResult]; one with it gets a
    [PatchResult] when it reports empty files handled and [SCMError]
    with the command and the output when it reports none. *)
Theorem only_garbage_classification (w : World)
    (patch_file base_path base_dir : string) (p : pyval) (revert : bool)
    (rc : Z) :
  let argv := patch_argv w patch_file base_path base_dir p revert in
  let result := fst (apply_patch w patch_file base_path base_dir p revert) in
  execute w argv = Returned rc only_garbage_in_patch ->
  (supports_empty_files w = false ->
   result = Ok (Some (mkPatchResult (rc =? 0) only_garbage_in_patch))) /\
  (forall patch handled,
     supports_empty_files w = true ->
     read_file w patch_file = inl patch ->
     (forall n, apply_patch_for_empty_files w patch n revert = Ok handled) ->
     result = if handled
              then Ok (Some (mkPatchResult (rc =? 0) only_garbage_in_patch))
              else Raise (SCMError
                            (failed_message w argv only_garbage_in_patch))).
Proof.
  intros argv result Hexec. subst argv result.
  pose proof (py_int_or_no_type_error w p (_get_p_number base_path base_dir)) as Hty.
  unfold apply_patch, patch_argv in *. cbv [bind ret raise emit lift].
  destruct (py_int w (py_or p (PInt (_get_p_number base_path base_dir))))
    as [z| |]; [| |congruence].
  - split.
    + intros Hsup. destruct (0 <=? z); destruct revert; cbn [app] in *;
        rewrite Hexec, Hsup; reflexivity.
    + intros patch handled Hsup Hread Hhook.
      destruct (0 <=? z); destruct revert; cbn [app] in *;
        rewrite Hexec, Hsup, Hread, Hhook; destruct handled; reflexivity.
  - change (0 <=? 0) with true. split.
    + intros Hsup. destruct revert; cbn [app] in *;
        rewrite Hexec, Hsup; reflexivity.
    + intros patch handled Hsup Hread Hhook.
      destruct revert; cbn [app] in *;
        rewrite Hexec, Hsup, Hread, Hhook; destruct handled; reflexivity.
Qed.

Lemma only_garbage_classification_witness :
  let handles := fun (b : bool) =>
    mkWorld AsciiInt.parse list_text
      (fun _ => Returned 2 only_garbage_in_patch) true (fun _ => inl "")
      (fun _ _ _ => Ok b) in
  fst (apply_patch (sample_world 2 only_garbage_in_patch false (inl ""))
         "empty.diff" "" "" (PStr "1") false)
  = Ok (Some (mkPatchResult false only_garbage_in_patch)) /\
  fst (apply_patch (handles true) "empty.diff" "" "" (PStr "1") false)
  = Ok (Some (mkPatchResult false only_garbage_in_patch)) /\
  fst (apply_patch (handles false) "empty.diff" "" "" (PStr "1") false)
  = Raise (SCMError
             (failed_message (handles false)
                ["patch"; "-p1"; "-i"; "empty.diff"] only_garbage_in_patch)).
Proof.
  intros handles. split; [|split].
  - apply (only_garbage_classification
             (sample_world 2 only_garbage_in_patch false (inl ""))
             "empty.diff" "" "" (PStr "1") false 2); reflexivity.
  - apply (proj2 (only_garbage_classification (handles true)
                    "empty.diff" "" "" (PStr "1") false 2 eq_refl)
             "" true); reflexivity.
  - apply (proj2 (only_garbage_classification (handles false)
                    "empty.diff" "" "" (PStr "1") false 2 eq_refl)
             "" false); reflexivity.
Defined.

(** X19: [apply_patch] returns [None] in one situation only: the
    backend supports empty files and the patch file cannot be read
    back; the error about the unreadable file is then in the log. *)
Theorem none_only_when_unreadable (w : World)
    (patch_file base_path base_dir : string) (p : pyval) (revert : bool) :
  fst (apply_patch w patch_file base_path base_dir p revert) = Ok None ->
  supports_empty_files w = true /\
  exists msg,
    read_file w patch_file = inr msg /\
    In (Log Error "Unable to read file %s: %s"
          [AStr patch_file; AExn (IOError msg)])
       (snd (apply_patch w patch_file base_path base_dir p revert)).
Proof.
  pose proof (py_int_or_no_type_error w p (_get_p_number base_path base_dir)) as Hty.
  unfold apply_patch. cbv [bind ret raise emit lift].
  destruct (py_int w (py_or p (PInt (_get_p_number base_path base_dir))))
    as [z| |]; [| |congruence].
  - destruct (supports_empty_files w) eqn:Hs;
      destruct (read_file w patch_file) as [patch|msg] eqn:Hr;
      destruct (0 <=? z); destruct revert; cbn [app];
      patch_branches; cbn [fst snd app]; intros H; try discriminate;
      (split; [reflexivity|]); exists msg;
      (split; [reflexivity|]); simpl; tauto.
  - change (0 <=? 0) with true.
    destruct (supports_empty_files w) eqn:Hs;
      destruct (read_file w patch_file) as [patch|msg] eqn:Hr;
      destruct revert; cbn [app];
      patch_branches; cbn [fst snd app]; intros H; try discriminate;
      (split; [reflexivity|]); exists msg;
      (split; [reflexivity|]); simpl; tauto.
Qed.

Lemma none_only_when_unreadable_witness :
  let w := sample_world 0 "patching file README" true
             (inr "Permission denied") in
  supports_empty_files w = true /\
  exists msg,
    read_file w "fix.diff" = inr msg /\
    In (Log Error "Unable to read file %s: %s"
          [AStr "fix.diff"; AExn (IOError msg)])
       (snd (apply_patch w "fix.diff" "" "" (PStr "1") false)).
Proof.
  intros w.
  apply (none_only_when_unreadable w "fix.diff" "" "" (PStr "1") false).
  reflexivity.
Defined.

(** * Further properties of the set-up methods *)

Section RunFacts.
Import Lifecycle.
Context {S : Type} (b : Backend S).

Lemma init_consistent (s : S) : consistent (init s).
Proof.
  unfold consistent, init. simpl. split; discriminate.
Qed.

Lemma setup_consistent (c : Client S) :
  consistent c -> consistent (snd (fst (setup b c))).
Proof.
  unfold consistent, setup. intros H.
  destruct (is_setup c) eqn:E; [simpl; now rewrite E|].
  destruct (check_dependencies b (sub c)) as [[[]|e] s']; simpl.
  - tauto.
  - destruct e; simpl; try exact H; split; discriminate.
Qed.

Lemma has_dependencies_consistent (c : Client S) (f : bool) :
  consistent c -> consistent (snd (fst (has_dependencies b c f))).
Proof.
  intros H. unfold has_dependencies.
  destruct (_has_deps c) eqn:E; [exact H|].
  pose proof (setup_consistent c H) as H'.
  destruct (setup b c) as [[[u|e] c'] t]; simpl in *; [exact H'|].
  destruct e; exact H'.
Qed.

Lemma step_consistent (c : Client S) (k : call) :
  consistent c -> consistent (fst (step b c k)).
Proof.
  intros H. destruct k as [|f]; unfold step.
  - pose proof (setup_consistent c H) as H'.
    now destruct (setup b c) as [[r c'] t].
  - pose proof (has_dependencies_consistent c f H) as H'.
    now destruct (has_dependencies b c f) as [[r c'] t].
Qed.

Lemma run_consistent (c : Client S) (ks : list call) :
  consistent c -> consistent (fst (run b c ks)).
Proof.
  revert c; induction ks as [|k ks IH]; intros c H; simpl; [exact H|].
  pose proof (step_consistent c k H) as H'.
  destruct (step b c k) as [c' t]. specialize (IH c' H').
  now destruct (run b c' ks) as [c'' t'].
Qed.

Lemma ready_step (c : Client S) (k : call) :
  is_setup c = true -> _has_deps c = Some true -> step b c k = (c, []).
Proof.
  intros H1 H2. destruct k as [|f]; unfold step, has_dependencies, setup;
    now rewrite ?H1, ?H2.
Qed.

Lemma ready_run (c : Client S) (ks : list call) :
  is_setup c = true -> _has_deps c = Some true -> run b c ks = (c, []).
Proof.
  intros H1 H2. induction ks as [|k ks IH]; simpl; [reflexivity|].
  now rewrite (ready_step c k H1 H2), IH.
Qed.

(** X8: in every state that [setup] and [has_dependencies] calls, in
    any order and whatever they raise, lead to from a new client, the
    client is marked set up exactly when its dependency check is
    recorded as passed. *)
Theorem setup_state_consistent (s : S) (ks : list call) :
  let c := fst (run b (init s) ks) in
  is_setup c = true <-> _has_deps c = Some true.
Proof.
  exact (run_consistent (init s) ks (init_consistent s)).
Qed.

(** X9: on such a client [has_dependencies] never lets
    [SCMClientDependencyError] out, and when it returns it returns a
    Boolean, not [None]. *)
Theorem has_dependencies_answers (s : S) (ks : list call) (f : bool) :
  let c := fst (run b (init s) ks) in
  match fst (fst (has_dependencies b c f)) with
  | Ok v => exists answer, v = Some answer
  | Raise e => e <> SCMClientDependencyError
  end.
Proof.
  intros c. pose proof (run_consistent (init s) ks (init_consistent s)) as H.
  fold c in H. unfold consistent in H. unfold has_dependencies.
  destruct (_has_deps c) as [v|] eqn:E; [simpl; now exists v|].
  unfold setup. destruct (is_setup c) eqn:Es.
  - destruct H as [H _]. specialize (H eq_refl). discriminate.
  - destruct (check_dependencies b (sub c)) as [[[]|e] s']; simpl.
    + now exists true.
    + destruct e; simpl; try discriminate. now exists false.
Qed.

(** X10: once a client is set up, no further [setup] or
    [has_dependencies] call changes it or calls [check_dependencies]
    again. *)
Theorem set_up_client_is_settled (s : S) (ks ks' : list call) :
  let c := fst (run b (init s) ks) in
  is_setup c = true -> run b c ks' = (c, []).
Proof.
  intros c H. apply ready_run; [exact H|].
  now apply (run_consistent (init s) ks (init_consistent s)).
Qed.

(** X11: a dependency failure is final for [has_dependencies] but not
    for [setup]: after a [setup] that raised [SCMClientDependencyError],
    the next [setup] calls [check_dependencies] again, and when that
    succeeds the client is set up and [has_dependencies] answers
    [True] from then on. *)
Theorem setup_retries_after_failure (c c' : Client S) (t : list event)
    (s'' : S) (flags : list bool) :
  setup b c = (Raise SCMClientDependencyError, c', t) ->
  check_dependencies b (sub c') = (Ok tt, s'') ->
  let ready := mkClient true (Some true) s'' in
  setup b c' = (Ok tt, ready, [CheckDependencies]) /\
  has_dependencies_calls b ready flags
  = (map (fun _ => Some true) flags, ready, []).
Proof.
  intros Hfail Hcheck ready.
  assert (Hs : is_setup c' = false).
  { unfold setup in Hfail. destruct (is_setup c) eqn:E; [discriminate|].
    destruct (check_dependencies b (sub c)) as [[[]|e] s']; [discriminate|].
    destruct e; try discriminate. now injection Hfail as <- _. }
  split.
  - unfold setup. now rewrite Hs, Hcheck.
  - induction flags as [|f flags IH]; simpl; [reflexivity|].
    now rewrite IH.
Qed.

(** X12: an exception of [check_dependencies] other than
    [SCMClientDependencyError] is not recorded: it leaves a new client
    as it was apart from what the check itself changed, it comes out of
    [has_dependencies] as it is, and the next [has_dependencies] call
    checks again. *)
Theorem other_errors_are_not_cached (s s' : S) (e : exn) (f f' : bool) :
  check_dependencies b s = (Raise e, s') ->
  e <> SCMClientDependencyError ->
  let warned := fun (flag : bool) =>
    if flag then [DeprecationWarning (cls_name b)] else [] in
  has_dependencies b (init s) f
  = (Raise e, init s', (warned f ++ [CheckDependencies])%list) /\
  probes (snd (has_dependencies b (init s') f')) = 1%nat.
Proof.
  intros Hcheck Hne warned.
  assert (Hsetup : setup b (init s) = (Raise e, init s', [CheckDependencies])).
  { unfold setup, init. simpl. rewrite Hcheck. now destruct e. }
  split.
  - unfold has_dependencies. simpl _has_deps. rewrite Hsetup.
    now destruct e.
  - unfold has_dependencies, setup, init. simpl.
    destruct (check_dependencies b s') as [[[]|e'] s2]; [now destruct f'|].
    destruct e'; now destruct f'.
Qed.

End RunFacts.

Lemma set_up_client_is_settled_witness :
  let c := fst (run installed_backend (Lifecycle.init O)
                  [CallHasDependencies false]) in
  run installed_backend c
    [CallSetup; CallHasDependencies true; CallSetup]
  = (c, []).
Proof.
  intros c.
  apply (set_up_client_is_settled installed_backend O
           [CallHasDependencies false]
           [CallSetup; CallHasDependencies true; CallSetup]).
  reflexivity.
Defined.

Lemma setup_retries_after_failure_witness :
  let failed := snd (fst (Lifecycle.setup late_backend (Lifecycle.init O))) in
  let ready := Lifecycle.mkClient true (Some true) 2%nat in
  Lifecycle.has_dependencies_calls late_backend failed [false]
  = ([Some false], failed, []) /\
  Lifecycle.setup late_backend failed = (Ok tt, ready, [CheckDependencies]) /\
  Lifecycle.has_dependencies_calls late_backend ready [false; true]
  = ([Some true; Some true], ready, []).
Proof.
  intros failed ready. split; [reflexivity|].
  apply (setup_retries_after_failure late_backend (Lifecycle.init O) failed
           [CheckDependencies] 2%nat [false; true]); reflexivity.
Defined.

Lemma other_errors_are_not_cached_witness :
  let broken := Lifecycle.mkBackend "BrokenClient"
                  (fun n : nat => (Raise (OtherError "OSError"), n)) in
  Lifecycle.has_dependencies broken (Lifecycle.init O) true
  = (Raise (OtherError "OSError"), Lifecycle.init O,
     [DeprecationWarning "BrokenClient"; CheckDependencies]) /\
  probes (snd (Lifecycle.has_dependencies broken (Lifecycle.init O) false))
  = 1%nat.
Proof.
  intros broken.
  apply (other_errors_are_not_cached broken O O (OtherError "OSError")
           true false); [reflexivity | discriminate].
Defined.

(** * Properties of [get_commit_message] *)

Section CommitMessageFacts.
Import CommitMessage.

Lemma splitlines_nil (s : string) : splitlines s = [] <-> s = EmptyString.
Proof.
  split; [|now intros ->].
  destruct s as [|c s]; [reflexivity|]. simpl.
  destruct (is_linebreak c).
  - destruct s as [|d s]; [discriminate|].
    destruct (is_cr c && is_lf d); discriminate.
  - destruct (splitlines s); discriminate.
Qed.

Lemma one_line_cons (c : ascii) (s : string) :
  one_line (String c s) <-> is_linebreak c = false /\ one_line s.
Proof.
  unfold one_line. simpl. split.
  - intros H. split; [apply H; now left | intros d Hd; apply H; now right].
  - intros [Hc Hs] d [<- | Hd]; [exact Hc | now apply Hs].
Qed.

Lemma splitlines_one_line (s : string) :
  one_line s -> s <> EmptyString -> splitlines s = [s].
Proof.
  induction s as [|c s IH]; intros Hone Hne; [congruence|].
  apply one_line_cons in Hone as [Hc Hs]. simpl. rewrite Hc.
  destruct s as [|d s]; [reflexivity|].
  now rewrite (IH Hs) by discriminate.
Qed.

Lemma splitlines_lf (rest : string) :
  splitlines (String lf rest) = EmptyString :: splitlines rest.
Proof.
  now destruct rest.
Qed.

Lemma splitlines_line (s rest : string) :
  one_line s ->
  splitlines (s ++ String lf rest) = s :: splitlines rest.
Proof.
  induction s as [|c s IH]; intros Hone.
  - apply splitlines_lf.
  - apply one_line_cons in Hone as [Hc Hs].
    change (splitlines (String c (s ++ String lf rest)) = String c s :: splitlines rest).
    cbn [splitlines]. rewrite Hc. now rewrite (IH Hs).
Qed.

(** The first line is the text before the first line boundary. *)
Lemma splitlines_first (s : string) :
  s <> EmptyString ->
  exists first others tail,
    splitlines s = first :: others /\ s = first ++ tail /\ one_line first /\
    (tail = EmptyString \/
     exists c t, tail = String c t /\ is_linebreak c = true).
Proof.
  induction s as [|c s IH]; intros Hne; [congruence|].
  destruct (is_linebreak c) eqn:Hc.
  - exists EmptyString.
    assert (H : exists others, splitlines (String c s) = EmptyString :: others).
    { simpl. rewrite Hc. destruct s as [|d s]; [now eexists|].
      destruct (is_cr c && is_lf d); now eexists. }
    destruct H as [others H]. exists others, (String c s).
    repeat split; [exact H | intros d [] |]. right. now exists c, s.
  - destruct s as [|d s].
    + exists (String c EmptyString), [], EmptyString. simpl. rewrite Hc.
      repeat split; [|now left]. apply one_line_cons. split; [exact Hc|].
      intros x [].
    + destruct IH as (first & others & tail & Hs & E & Hone & Htail);
        [discriminate|].
      exists (String c first), others, tail.
      repeat split; [| simpl; now rewrite <- E | | exact Htail].
      * change (splitlines (String c (String d s)))
          with (if is_linebreak c
                then (if is_cr c && is_lf d
                      then EmptyString :: splitlines s
                      else EmptyString :: splitlines (String d s))
                else match splitlines (String d s) with
                     | [] => [String c EmptyString]
                     | l :: ls => String c l :: ls
                     end).
        now rewrite Hc, Hs.
      * apply one_line_cons. now split.
Qed.

Lemma lstrip_no_start (s : string) : starts_with_space (lstrip s) = false.
Proof.
  induction s as [|c s IH]; simpl; [reflexivity|].
  destruct (is_space c) eqn:E; [exact IH | simpl; exact E].
Qed.

Lemma rstrip_keeps_start (s : string) :
  starts_with_space s = false -> starts_with_space (rstrip s) = false.
Proof.
  destruct s as [|c s]; simpl; [reflexivity|]. intros Hc.
  destruct (rstrip s); [rewrite Hc|]; simpl; exact Hc.
Qed.

Lemma rstrip_no_end (s : string) : ends_with_space (rstrip s) = false.
Proof.
  induction s as [|c s IH]; simpl; [reflexivity|].
  destruct (rstrip s) as [|d r] eqn:E.
  - destruct (is_space c) eqn:Hc; simpl; [reflexivity | exact Hc].
  - exact IH.
Qed.

Lemma rstrip_idempotent (s : string) : rstrip (rstrip s) = rstrip s.
Proof.
  induction s as [|c s IH]; simpl; [reflexivity|].
  destruct (rstrip s) as [|d r] eqn:E.
  - destruct (is_space c) eqn:Hc; simpl; [reflexivity | now rewrite Hc].
  - change (rstrip (String c (String d r)))
      with (match rstrip (String d r) with
            | EmptyString =>
                if is_space c then EmptyString else String c EmptyString
            | r' => String c r'
            end).
    now rewrite IH.
Qed.

Lemma lstrip_fixed (s : string) :
  starts_with_space s = false -> lstrip s = s.
Proof.
  destruct s as [|c s]; simpl; [reflexivity|]. now intros ->.
Qed.

Lemma strip_idempotent (s : string) : strip (strip s) = strip s.
Proof.
  unfold strip.
  rewrite (lstrip_fixed (rstrip (lstrip s)))
    by (apply rstrip_keeps_start, lstrip_no_start).
  apply rstrip_idempotent.
Qed.

Context {R : Type} (get_raw_commit_message : R -> outcome (option string)).

(** X13: when the backend hands over a message, [get_commit_message]
    returns [None] for the empty message and for no other. *)
Theorem no_message_only_for_empty (revisions : R) (message : string) :
  get_raw_commit_message revisions = Ok (Some message) ->
  (get_commit_message get_raw_commit_message revisions = Ok None
   <-> message = EmptyString).
Proof.
  intros H. unfold get_commit_message. rewrite H.
  destruct (splitlines message) as [|first others] eqn:E.
  - apply splitlines_nil in E. now split.
  - split; [discriminate|]. intros ->. discriminate.
Qed.

(** X14: the summary is the message up to its first line boundary: it
    has no line boundary in it, the message starts with it, and what
    follows it in the message is nothing or starts with a boundary. *)
Theorem summary_is_first_line (revisions : R) (message : string)
    (m : Message) :
  get_raw_commit_message revisions = Ok (Some message) ->
  get_commit_message get_raw_commit_message revisions = Ok (Some m) ->
  one_line (summary m) /\
  exists tail,
    message = summary m ++ tail /\
    (tail = EmptyString \/
     exists c t, tail = String c t /\ is_linebreak c = true).
Proof.
  intros H. unfold get_commit_message. rewrite H.
  destruct message as [|c s]; [discriminate|].
  destruct (splitlines_first (String c s)) as
    (first & others & tail & Hs & E & Hone & Htail); [discriminate|].
  rewrite Hs. intros [= <-]. simpl summary.
  split; [exact Hone | now exists tail].
Qed.

(** X15: a message of one line, also when one or two line feeds follow
    the line, is returned whole as the description, the summary and
    the line feeds included; the summary is the line. *)
Theorem short_message_is_its_description (revisions : R)
    (line tail : string) :
  get_raw_commit_message revisions = Ok (Some (line ++ tail)) ->
  line <> EmptyString -> one_line line ->
  tail = EmptyString \/ tail = newline \/ tail = newline ++ newline ->
  get_commit_message get_raw_commit_message revisions
  = Ok (Some (mkMessage line (line ++ tail))).
Proof.
  intros H Hne Hone Htail. unfold get_commit_message. rewrite H.
  destruct Htail as [-> | [-> | ->]].
  - rewrite append_empty_r. now rewrite (splitlines_one_line line Hone Hne).
  - change newline with (String lf EmptyString).
    now rewrite (splitlines_line line EmptyString Hone).
  - change (newline ++ newline) with (String lf (String lf EmptyString)).
    now rewrite (splitlines_line line _ Hone).
Qed.

(** X16: for a message made of a summary line, an empty line and a
    body, the summary is the line and the description is the body with
    its lines joined by line feeds and stripped: it neither starts nor
    ends with white space, and stripping it again changes nothing. *)
Theorem body_is_stripped_description (revisions : R) (line body : string) :
  get_raw_commit_message revisions
    = Ok (Some (line ++ newline ++ newline ++ body)) ->
  line <> EmptyString -> one_line line -> body <> EmptyString ->
  exists d,
    get_commit_message get_raw_commit_message revisions
      = Ok (Some (mkMessage line d)) /\
    d = strip (join_lines (splitlines body)) /\
    starts_with_space d = false /\ ends_with_space d = false /\
    strip d = d.
Proof.
  intros H Hne Hone Hbody. unfold get_commit_message. rewrite H.
  change (line ++ newline ++ newline ++ body)
    with (line ++ String lf (String lf body)).
  rewrite (splitlines_line line _ Hone), splitlines_lf.
  destruct (splitlines body) as [|b bs] eqn:E.
  - apply splitlines_nil in E. contradiction.
  - exists (strip (join_lines (b :: bs))).
    assert (Ht : PyStr.truthy line = true) by now apply truthy_iff.
    cbn [List.length nth skipn]. rewrite Ht. cbn [PyStr.truthy negb andb].
    replace (3 <=? S (S (S (List.length bs))))%nat with true
      by (symmetry; apply Nat.leb_le; lia).
    repeat split.
    + apply rstrip_keeps_start, lstrip_no_start.
    + apply rstrip_no_end.
    + apply strip_idempotent.
Qed.

End CommitMessageFacts.

Lemma no_message_only_for_empty_witness :
  CommitMessage.get_commit_message (fun _ : unit => Ok (Some "")) tt
  = Ok None.
Proof.
  apply (no_message_only_for_empty (fun _ : unit => Ok (Some "")) tt "");
    reflexivity.
Defined.

Lemma summary_is_first_line_witness :
  let message := "Fix the parser" ++ newline ++ "More text" in
  CommitMessage.one_line "Fix the parser" /\
  exists tail,
    message = "Fix the parser" ++ tail /\
    (tail = EmptyString \/
     exists c t, tail = String c t /\ CommitMessage.is_linebreak c = true).
Proof.
  intros message.
  apply (summary_is_first_line (fun _ : unit => Ok (Some message)) tt message
           (CommitMessage.mkMessage "Fix the parser" message));
    reflexivity.
Defined.

Lemma short_message_is_its_description_witness :
  CommitMessage.get_commit_message
    (fun _ : unit => Ok (Some ("Fix the parser" ++ newline ++ newline))) tt
  = Ok (Some (CommitMessage.mkMessage "Fix the parser"
                ("Fix the parser" ++ newline ++ newline))).
Proof.
  apply (short_message_is_its_description
           (fun _ : unit => Ok (Some ("Fix the parser" ++ newline ++ newline)))
           tt "Fix the parser" (newline ++ newline)).
  - reflexivity.
  - discriminate.
  - intros c Hc. simpl in Hc.
    repeat (destruct Hc as [<- | Hc]; [reflexivity|]). destruct Hc.
  - right. right. reflexivity.
Defined.

Lemma body_is_stripped_description_witness :
  let body := "  The lexer dropped tabs. " ++ newline ++ newline
              ++ "Bug: 12 " ++ newline in
  exists d,
    CommitMessage.get_commit_message
      (fun _ : unit =>
         Ok (Some ("Fix the parser" ++ newline ++ newline ++ body))) tt
    = Ok (Some (CommitMessage.mkMessage "Fix the parser" d)) /\
    d = "The lexer dropped tabs. " ++ newline ++ newline ++ "Bug: 12" /\
    CommitMessage.starts_with_space d = false /\
    CommitMessage.ends_with_space d = false /\
    CommitMessage.strip d = d.
Proof.
  intros body.
  apply (body_is_stripped_description
           (fun _ : unit =>
              Ok (Some ("Fix the parser" ++ newline ++ newline ++ body)))
           tt "Fix the parser" body).
  - reflexivity.
  - discriminate.
  - intros c Hc. simpl in Hc.
    repeat (destruct Hc as [<- | Hc]; [reflexivity|]). destruct Hc.
  - discriminate.
Defined.

(** * Properties of [_normalize_diff] *)

Section NormalizeFacts.
Import NormalizeDiff.

Lemma star_ext (c c' : ascii -> bool) (k k' : string -> option string)
    (s : string) :
  (forall x, c x = c' x) -> (forall t, k t = k' t) ->
  Re.star c k s = Re.star c' k' s.
Proof.
  intros Hc Hk. induction s as [|x s IH]; simpl; [apply Hk|].
  now rewrite Hc, IH, Hk.
Qed.

(** Matching looks at a pattern through its classes only. *)
Lemma match_here_ext (p q : Re.pattern) :
  Forall2 (fun i j => snd i = snd j /\ forall x, fst i x = fst j x) p q ->
  forall s, Re.match_here p s = Re.match_here q s.
Proof.
  induction 1 as [|[c u] [c' u'] p q [Hu Hc] _ IH]; intros s; [reflexivity|].
  simpl in Hu, Hc. subst u'. destruct u; simpl.
  - destruct s as [|x s]; [reflexivity|]. rewrite Hc. now rewrite IH.
  - now apply star_ext.
  - destruct s as [|x s]; [reflexivity|]. rewrite Hc.
    destruct (c' x); [|reflexivity]. now apply star_ext.
Qed.

Lemma is_digit_kind (x : ascii) : is_digit x = Nat.eqb (kind x) 0.
Proof.
  unfold kind. destruct (is_digit x); [reflexivity|].
  now repeat match goal with |- context [Ascii.eqb ?a ?b] =>
                                destruct (Ascii.eqb a b) end.
Qed.

Lemma lit_kind (x c : ascii) (k : nat) :
  kind c = k -> (0 < k < 4)%nat -> (forall y, kind y = k -> y = c) ->
  Ascii.eqb x c = Nat.eqb (kind x) k.
Proof.
  intros Hk Hr Huniq. destruct (Ascii.eqb_spec x c) as [-> | Hne].
  - rewrite Hk. symmetry. apply Nat.eqb_refl.
  - symmetry. apply Nat.eqb_neq. intros E. apply Hne. now apply Huniq.
Qed.

Lemma kind_unique (y : ascii) (k : nat) :
  kind y = k ->
  (k = 1%nat -> y = "-"%char) /\ (k = 2%nat -> y = " "%char) /\
  (k = 3%nat -> y = ":"%char).
Proof.
  unfold kind. intros <-.
  destruct (is_digit y); [repeat split; discriminate|].
  destruct (Ascii.eqb_spec y "-"); [repeat split; (discriminate || easy)|].
  destruct (Ascii.eqb_spec y " "); [repeat split; (discriminate || easy)|].
  destruct (Ascii.eqb_spec y ":"); repeat split; (discriminate || easy).
Qed.

Lemma timestamp_regex_kinds (s : string) :
  Re.match_here timestamp_regex s
  = Re.match_here (pattern_of_kinds stamp_kinds) s.
Proof.
  apply match_here_ext.
  let ks := eval vm_compute in stamp_kinds in change stamp_kinds with ks.
  unfold timestamp_regex, pattern_of_kinds. cbn [map].
  repeat (apply Forall2_cons; [split; [reflexivity|]; simpl; intros x|]);
    [..|apply Forall2_nil].
  all: try apply is_digit_kind.
  all: apply lit_kind; [reflexivity | lia |].
  all: intros y Hy; destruct (kind_unique y _ Hy) as (H1 & H2 & H3).
  all: first [now apply H1 | now apply H2 | now apply H3].
Qed.

Lemma kinds_app (a b : string) : kinds (a ++ b) = (kinds a ++ kinds b)%list.
Proof.
  induction a as [|c a IH]; simpl; [reflexivity | now rewrite IH].
Qed.

Lemma kinds_length (s : string) : List.length (kinds s) = String.length s.
Proof.
  induction s as [|c s IH]; simpl; [reflexivity | now rewrite IH].
Qed.

Lemma kinds_split (s : string) (k1 k2 : list nat) :
  kinds s = (k1 ++ k2)%list ->
  exists a b, s = a ++ b /\ kinds a = k1 /\ kinds b = k2.
Proof.
  revert s; induction k1 as [|k k1 IH]; intros s H.
  - now exists EmptyString, s.
  - destruct s as [|c s]; [discriminate|]. simpl in H.
    injection H as Hc H. destruct (IH s H) as (a & b & -> & Ha & Hb).
    exists (String c a), b. simpl. now rewrite Hc, Ha.
Qed.

(** A pattern of kinds matches exactly the texts that start with
    characters of these kinds, and leaves what follows them. *)
Lemma match_kinds (ks : list nat) (s r : string) :
  Re.match_here (pattern_of_kinds ks) s = Some r <->
  exists pre, s = pre ++ r /\ kinds pre = ks.
Proof.
  revert s; induction ks as [|k ks IH]; intros s; simpl.
  - split.
    + intros [= ->]. now exists EmptyString.
    + intros (pre & -> & H). now destruct pre.
  - destruct s as [|c s].
    + split; [discriminate|]. intros (pre & E & H).
      destruct pre; discriminate.
    + destruct (Nat.eqb_spec (kind c) k) as [Hk | Hk].
      * rewrite IH. split.
        -- intros (pre & -> & H). exists (String c pre). simpl.
           now rewrite Hk, H.
        -- intros (pre & E & H). destruct pre as [|d pre]; [discriminate|].
           simpl in E, H. injection E as <- ->. injection H as _ H.
           now exists pre.
      * split; [discriminate|]. intros (pre & E & H).
        destruct pre as [|d pre]; [discriminate|].
        simpl in E, H. injection E as <- _. injection H as H _. contradiction.
Qed.

Lemma match_kinds_alike (ks : list nat) (s t : string) :
  kinds s = kinds t ->
  Re.match_here (pattern_of_kinds ks) s = None ->
  Re.match_here (pattern_of_kinds ks) t = None.
Proof.
  intros Hst Hs.
  destruct (Re.match_here (pattern_of_kinds ks) t) as [r|] eqn:Ht;
    [|reflexivity].
  apply match_kinds in Ht as (pre & -> & Hpre).
  rewrite kinds_app in Hst.
  destruct (kinds_split s _ _ Hst) as (a & b & -> & Ha & Hb).
  assert (H : Re.match_here (pattern_of_kinds ks) (a ++ b) = Some b)
    by (apply match_kinds; exists a; split; congruence).
  congruence.
Qed.

Lemma scan_match (pre r : string) :
  kinds pre = stamp_kinds -> scan (pre ++ r) = fixed_timestamp ++ scan r.
Proof.
  intros Hpre. unfold scan.
  assert (Hm : Re.match_here timestamp_regex (pre ++ r) = Some r).
  { rewrite timestamp_regex_kinds. apply match_kinds. now exists pre. }
  assert (Hlen : String.length pre = 19%nat)
    by (rewrite <- kinds_length, Hpre; reflexivity).
  destruct pre as [|c pre]; [discriminate|].
  change (String c pre ++ r) with (String c (pre ++ r)) in *.
  cbn [Re.sub_scan]. rewrite Hm.
  replace (String.length (String c (pre ++ r)) - String.length r)%nat
    with (S (String.length pre))
    by (cbn [String.length]; rewrite length_append; lia).
  cbn [Re.dec]. now rewrite sub_scan_skip.
Qed.

Lemma scan_copy (c : ascii) (s : string) :
  Re.match_here timestamp_regex (String c s) = None ->
  scan (String c s) = String c (scan s).
Proof.
  intros Hm. unfold scan. cbn [Re.sub_scan]. now rewrite Hm.
Qed.

Lemma scan_cases (s : string) :
  s = EmptyString \/
  (exists pre r, s = pre ++ r /\ kinds pre = stamp_kinds /\
                 (String.length r < String.length s)%nat) \/
  (exists c s', s = String c s' /\
                Re.match_here timestamp_regex s = None).
Proof.
  destruct s as [|c s]; [now left|]. right.
  destruct (Re.match_here timestamp_regex (String c s)) as [r|] eqn:E.
  - left. rewrite timestamp_regex_kinds in E.
    apply match_kinds in E as (pre & E & Hpre).
    exists pre, r. repeat split; try assumption.
    rewrite E, length_append, <- (kinds_length pre), Hpre. simpl. lia.
  - right. now exists c, s.
Qed.

(** The scan keeps the kind of every character. *)
Lemma scan_kinds (s : string) : kinds (scan s) = kinds s.
Proof.
  remember (String.length s) as n eqn:Hn. revert s Hn.
  induction n as [n IH] using lt_wf_ind. intros s Hn.
  destruct (scan_cases s) as [-> | [(pre & r & -> & Hpre & Hlt)
                                    | (c & s' & -> & Hm)]].
  - reflexivity.
  - rewrite (scan_match pre r Hpre), !kinds_app, Hpre.
    now rewrite (IH (String.length r)) by (subst n; auto).
  - rewrite (scan_copy c s' Hm). simpl.
    now rewrite (IH (String.length s')) by (subst n; simpl; auto).
Qed.

Lemma scan_idempotent (s : string) : scan (scan s) = scan s.
Proof.
  remember (String.length s) as n eqn:Hn. revert s Hn.
  induction n as [n IH] using lt_wf_ind. intros s Hn.
  destruct (scan_cases s) as [-> | [(pre & r & -> & Hpre & Hlt)
                                    | (c & s' & -> & Hm)]].
  - reflexivity.
  - rewrite (scan_match pre r Hpre).
    rewrite (scan_match fixed_timestamp (scan r) eq_refl).
    now rewrite (IH (String.length r)) by (subst n; auto).
  - rewrite (scan_copy c s' Hm).
    assert (Hm' : Re.match_here timestamp_regex (String c (scan s')) = None).
    { rewrite timestamp_regex_kinds in *.
      apply (match_kinds_alike _ (String c s')); [|exact Hm].
      simpl. now rewrite scan_kinds. }
    rewrite (scan_copy c (scan s') Hm').
    now rewrite (IH (String.length s')) by (subst n; simpl; auto).
Qed.

Lemma normalize_scan (b : string) : normalize b = scan b.
Proof.
  reflexivity.
Qed.

Lemma normalize_length (b : string) :
  String.length (normalize b) = String.length b.
Proof.
  now rewrite normalize_scan, <- !kinds_length, scan_kinds.
Qed.

Lemma normalize_truthy (b : string) :
  PyStr.truthy (normalize b) = PyStr.truthy b.
Proof.
  pose proof (normalize_length b) as H.
  destruct b, (normalize _); simpl in *; congruence.
Qed.

Lemma normalize_key_spec (d d' : dict) (key : string) :
  normalize_key d key = Ok d' ->
  (forall k, k <> key -> d' k = d k) /\
  ((truthy (get d key) = false /\ d' key = d key) \/
   (exists b, b <> EmptyString /\ get d key = VBytes b /\
              d' key = Some (VBytes (normalize b)))).
Proof.
  unfold normalize_key, set.
  destruct (truthy (get d key)) eqn:Ht.
  - destruct (get d key) as [|b|t] eqn:Hg; try discriminate.
    intros [= <-]. split.
    + intros k Hk. apply String.eqb_neq in Hk. now rewrite Hk.
    + right. exists b. rewrite String.eqb_refl.
      repeat split. simpl in Ht. now apply truthy_iff.
  - intros [= <-]. split; [reflexivity | now left].
Qed.

(** X17: [_normalize_diff] keeps the shape of a diff result: every key
    other than [diff] and [parent_diff] keeps its value, and a bytes
    value under any key stays a bytes value of the same length (a time
    stamp is replaced by one of the same width). *)
Theorem normalize_diff_keeps_shape (d d' : dict) :
  _normalize_diff d = Ok d' ->
  (forall k, k <> "diff" -> k <> "parent_diff" -> d' k = d k) /\
  (forall k b, d k = Some (VBytes b) ->
     exists b', d' k = Some (VBytes b') /\
                String.length b' = String.length b).
Proof.
  unfold _normalize_diff.
  destruct (normalize_key d "diff") as [d1|e] eqn:E1; [|discriminate].
  intros E2.
  destruct (normalize_key_spec _ _ _ E1) as [Ho1 H1].
  destruct (normalize_key_spec _ _ _ E2) as [Ho2 H2].
  split.
  - intros k Hk1 Hk2. now rewrite Ho2, Ho1.
  - assert (Hstep : forall (x x' : dict) key,
              (forall k, k <> key -> x' k = x k) ->
              (truthy (get x key) = false /\ x' key = x key) \/
              (exists b, b <> EmptyString /\ get x key = VBytes b /\
                         x' key = Some (VBytes (normalize b))) ->
              forall k b, x k = Some (VBytes b) ->
              exists b', x' k = Some (VBytes b') /\
                         String.length b' = String.length b).
    { intros x x' key Ho Hk k b Hb.
      destruct (String.eqb_spec k key) as [-> | Hne].
      - destruct Hk as [[_ Hk] | (b0 & _ & Hg & Hk)].
        + exists b. now rewrite Hk.
        + unfold get in Hg. rewrite Hb in Hg. injection Hg as <-.
          exists (normalize b). split; [exact Hk | apply normalize_length].
      - exists b. now rewrite Ho. }
    intros k b Hb.
    destruct (Hstep d d1 "diff" Ho1 H1 k b Hb) as (b1 & Hb1 & L1).
    destruct (Hstep d1 d' "parent_diff" Ho2 H2 k b1 Hb1) as (b2 & Hb2 & L2).
    exists b2. split; [exact Hb2 | congruence].
Qed.

Lemma normalize_key_again (d d' : dict) (key : string) :
  normalize_key d key = Ok d' ->
  exists d'', normalize_key d' key = Ok d'' /\ forall k, d'' k = d' k.
Proof.
  intros E. destruct (normalize_key_spec _ _ _ E) as [Ho H].
  unfold normalize_key, get.
  destruct H as [[Ht Hk] | (b & Hne & Hg & Hk)].
  - unfold get in Ht. rewrite Hk, Ht. now exists d'.
  - rewrite Hk. simpl truthy. rewrite normalize_truthy.
    apply truthy_iff in Hne. rewrite Hne.
    eexists. split; [reflexivity|]. intros k. unfold set.
    destruct (String.eqb_spec k key) as [-> | _]; [|reflexivity].
    rewrite Hk, !normalize_scan. now rewrite scan_idempotent.
Qed.

(** X18: [_normalize_diff] is idempotent: normalizing a normalized
    result succeeds and changes no key. *)
Theorem normalize_diff_idempotent (d d' : dict) :
  _normalize_diff d = Ok d' ->
  exists d'', _normalize_diff d' = Ok d'' /\ forall k, d'' k = d' k.
Proof.
  unfold _normalize_diff.
  destruct (normalize_key d "diff") as [d1|e] eqn:E1; [|discriminate].
  intros E2.
  destruct (normalize_key_spec _ _ _ E2) as [Ho2 _].
  destruct (normalize_key_again _ _ _ E1) as (d1' & E1' & H1').
  destruct (normalize_key_again _ _ _ E2) as (d2' & E2' & H2').
  assert (Hdiff : normalize_key d' "diff" = Ok d'
                  \/ exists x, normalize_key d' "diff" = Ok x /\
                               forall k, x k = d' k).
  { right. unfold normalize_key, get in *.
    rewrite (Ho2 "diff") by discriminate.
    destruct (d1 "diff") as [[|b|t]|] eqn:Hd; simpl truthy in *.
    - now exists d'.
    - destruct (PyStr.truthy b) eqn:Hb.
      + injection E1' as <-. eexists. split; [reflexivity|].
        intros k. unfold set.
        destruct (String.eqb_spec k "diff") as [-> | _]; [|reflexivity].
        rewrite (Ho2 "diff") by discriminate. rewrite Hd.
        specialize (H1' "diff"). unfold set in H1'. simpl in H1'.
        congruence.
      + now exists d'.
    - destruct (PyStr.truthy t); [discriminate | now exists d'].
    - now exists d'. }
  destruct Hdiff as [Hd | (x & Hd & Hx)].
  - rewrite Hd. now exists d2'.
  - rewrite Hd. unfold normalize_key, get in *. rewrite (Hx "parent_diff").
    destruct (d' "parent_diff") as [[|b|t]|] eqn:Hp; simpl truthy in *.
    + now exists x.
    + destruct (PyStr.truthy b) eqn:Hb.
      * injection E2' as <-. eexists. split; [reflexivity|].
        intros k. unfold set in *.
        specialize (H2' k). rewrite <- H2'.
        destruct (String.eqb k "parent_diff"); [reflexivity | apply Hx].
      * now exists x.
    + destruct (PyStr.truthy t); [discriminate | now exists x].
    + now exists x.
Qed.

End NormalizeFacts.

Lemma normalize_diff_keeps_shape_witness :
  exists d',
    NormalizeDiff._normalize_diff NormalizeDiff.sample_result = Ok d' /\
    d' "changenum" = Some (NormalizeDiff.VStr "12345") /\
    exists b',
      d' "diff" = Some (NormalizeDiff.VBytes b') /\
      String.length b' = 36%nat.
Proof.
  eexists. split; [reflexivity|].
  match goal with
  | |- ?d "changenum" = _ /\ _ =>
      destruct (normalize_diff_keeps_shape NormalizeDiff.sample_result d
                  eq_refl) as [Hkeys Hbytes]
  end.
  split.
  - rewrite Hkeys by discriminate. reflexivity.
  - destruct (Hbytes "diff" _ eq_refl) as (b' & Hb & Hl).
    exists b'. split; [exact Hb | exact Hl].
Defined.

Lemma normalize_diff_idempotent_witness :
  exists d' d'',
    NormalizeDiff._normalize_diff NormalizeDiff.sample_result = Ok d' /\
    d' "diff"
    = Some (NormalizeDiff.VBytes
              ("--- a" ++ Perforce.tab ++ "a#2" ++ newline
               ++ "+++ a" ++ Perforce.tab ++ "2022-01-02 12:34:56"
               ++ newline)) /\
    NormalizeDiff._normalize_diff d' = Ok d'' /\
    forall k, d'' k = d' k.
Proof.
  eexists.
  match goal with
  | |- exists d'', _ = Ok ?d /\ _ =>
      destruct (normalize_diff_idempotent NormalizeDiff.sample_result d
                  eq_refl) as (d'' & H1 & H2)
  end.
  exists d''. split; [reflexivity|]. split; [reflexivity|].
  split; [exact H1 | exact H2].
Defined.

(** * Properties of the hook helpers *)

Section StripFacts.
Import Hooks.
Variable sp : ascii -> bool.

Lemma lstrip_with_split (s : string) :
  exists pre,
    s = pre ++ lstrip_with sp s /\ all_space sp pre = true /\
    starts_space sp (lstrip_with sp s) = false.
Proof.
  induction s as [|c s (pre & E & Hpre & Hst)]; simpl.
  - now exists EmptyString.
  - destruct (sp c) eqn:Hc.
    + exists (String c pre). simpl. rewrite Hc, Hpre.
      repeat split; [congruence | exact Hst].
    + exists EmptyString. simpl. now rewrite Hc.
Qed.

Lemma rstrip_with_split (s : string) :
  exists post,
    s = rstrip_with sp s ++ post /\ all_space sp post = true /\
    ends_space sp (rstrip_with sp s) = false.
Proof.
  induction s as [|c s (post & E & Hpost & Hend)]; simpl.
  - now exists EmptyString.
  - destruct (rstrip_with sp s) as [|d r] eqn:Er.
    + destruct (sp c) eqn:Hc.
      * exists (String c post). simpl in *. rewrite Hc, Hpost.
        repeat split. congruence.
      * exists post. simpl in *. rewrite Hc. repeat split; congruence.
    + exists post. repeat split; [simpl in *; congruence | exact Hpost|].
      exact Hend.
Qed.

Lemma rstrip_with_keeps_start (s : string) :
  starts_space sp s = false -> starts_space sp (rstrip_with sp s) = false.
Proof.
  destruct s as [|c s]; simpl; [reflexivity|]. intros Hc.
  destruct (rstrip_with sp s); [rewrite Hc|]; simpl; exact Hc.
Qed.

Lemma strip_with_split (s : string) :
  exists pre post,
    s = pre ++ strip_with sp s ++ post /\
    all_space sp pre = true /\ all_space sp post = true /\
    starts_space sp (strip_with sp s) = false /\
    ends_space sp (strip_with sp s) = false.
Proof.
  unfold strip_with.
  destruct (lstrip_with_split s) as (pre & E1 & Hpre & Hst).
  destruct (rstrip_with_split (lstrip_with sp s)) as (post & E2 & Hpost & Hend).
  exists pre, post. repeat split; try assumption.
  - now rewrite <- E2.
  - now apply rstrip_with_keeps_start.
Qed.

End StripFacts.

Section HookFacts.
Import Hooks.

(** X20: [execute] tells a failed command by [None], not by an
    exception: when the process ran, the result is [None] exactly when
    its return code is not 0, and the failure is logged exactly then.
    For a return code of 0 and [strip] set, the result is the output
    without the white space around it: the output is white space, the
    result, white space, and the result neither starts nor ends with
    white space. *)
Theorem execute_result {C : Type} (popen : C -> bool -> outcome (string * Z))
    (command : C) (text strip : bool) (output : string) (returncode : Z) :
  popen command text = Ok (output, returncode) ->
  let r := fst (execute popen command text strip) in
  let t := snd (execute popen command text strip) in
  (r = Ok None <-> returncode <> 0) /\
  (In (FailedToExecute command) t <-> returncode <> 0) /\
  (returncode = 0 ->
   exists o, r = Ok (Some o) /\
     (strip = false -> o = output) /\
     (strip = true ->
      exists pre post,
        output = pre ++ o ++ post /\
        all_space (space_of text) pre = true /\
        all_space (space_of text) post = true /\
        starts_space (space_of text) o = false /\
        ends_space (space_of text) o = false)).
Proof.
  intros Hp r t. subst r t. unfold execute. rewrite Hp.
  destruct (returncode =? 0) eqn:E; simpl.
  - assert (returncode = 0) by lia. subst returncode.
    split; [split; [discriminate | congruence]|].
    split; [split; [intros [H | []]; discriminate | congruence]|].
    intros _. eexists. split; [reflexivity|]. split.
    + now intros ->.
    + intros ->. apply strip_with_split.
  - assert (returncode <> 0) by lia.
    split; [split; [now intros _ | reflexivity]|].
    split; [split; [now intros _ | intros _; right; now left]|].
    contradiction.
Qed.

Lemma execute_result_witness :
  let popen := fun (_ : string) (_ : bool) =>
    Ok ((" 4f2a9c " ++ newline)%string, 0) in
  let failing := fun (_ : string) (_ : bool) => Ok ("fatal: no HEAD", 128) in
  fst (execute failing "git rev-parse HEAD" false true) = Ok None /\
  exists o,
    fst (execute popen "git rev-parse HEAD" false true) = Ok (Some o) /\
    o = "4f2a9c".
Proof.
  intros popen failing. split.
  - apply (execute_result failing "git rev-parse HEAD" false true
             "fatal: no HEAD" 128 eq_refl). discriminate.
  - destruct (execute_result popen "git rev-parse HEAD" false true
                (" 4f2a9c " ++ newline) 0 eq_refl) as (_ & _ & H).
    destruct (H eq_refl) as (o & Ho & _).
    exists o. split; [exact Ho|].
    injection Ho as <-. reflexivity.
Defined.

Context {Client Root Id RR : Type} (api : Api Client Root Id RR).

(** X21: [close_review_request] sends at most one update, only for a
    review request that is not yet submitted, and with a description
    only when the given one is not empty. *)
Theorem close_updates_once (server_url username password : string)
    (review_request_id : Id) (description : string) :
  let t := snd (close_review_request api server_url username password
                  review_request_id description) in
  (List.length (updates t) <= 1)%nat /\
  forall review_request sent,
    In (review_request, sent) (updates t) ->
    status api review_request <> SUBMITTED /\
    (description = EmptyString -> sent = None) /\
    (description <> EmptyString -> sent = Some description).
Proof.
  intros t. subst t. unfold close_review_request.
  destruct (get_api api server_url username password) as [e|[c root]];
    [simpl; split; [lia | intros ? ? []]|].
  destruct (get_review_request api review_request_id root) as [e|rr];
    [simpl; split; [lia | intros ? ? []]|].
  destruct (String.eqb_spec (status api rr) SUBMITTED) as [Hs|Hs];
    [simpl; split; [lia | intros ? ? []]|].
  assert (Hsent : (description = EmptyString ->
                   (if PyStr.truthy description then Some description
                    else None) = None) /\
                  (description <> EmptyString ->
                   (if PyStr.truthy description then Some description
                    else None) = Some description)).
  { destruct description; simpl; split; congruence. }
  destruct (update api rr _) as [e|rr']; simpl; (split; [lia|]);
    intros r d [[= <- <-] | []]; (split; [exact Hs | exact Hsent]).
Qed.

(** X22: a [HookError] from [close_review_request] means that nothing
    was sent, logged or printed; a failure of the update itself is not
    turned into a [HookError] but comes out as it is. *)
Theorem close_errors (server_url username password : string)
    (review_request_id : Id) (description : string) :
  let r := fst (close_review_request api server_url username password
                  review_request_id description) in
  let t := snd (close_review_request api server_url username password
                  review_request_id description) in
  (forall msg, r = inl (HookError msg) -> t = []) /\
  (forall review_request sent e,
     In (review_request, sent) (updates t) ->
     update api review_request sent = inl e -> r = inl (Propagated e)).
Proof.
  intros r t. subst r t. unfold close_review_request.
  destruct (get_api api server_url username password) as [e|[c root]];
    [simpl; split; [reflexivity | intros ? ? ? []]|].
  destruct (get_review_request api review_request_id root) as [e|rr];
    [simpl; split; [reflexivity | intros ? ? ? []]|].
  destruct (String.eqb (status api rr) SUBMITTED);
    [simpl; split; [discriminate | intros ? ? ? []]|].
  destruct (update api rr _) as [e|rr'] eqn:Hu; simpl;
    (split; [discriminate|]);
    intros r d e' [[= <- <-] | []] Hu'; congruence.
Qed.

End HookFacts.

Lemma close_updates_once_witness :
  snd (Hooks.close_review_request Hooks.sample_api "https://rb" "hook" "pw"
         1%nat "")
  = [Hooks.Update (1%nat, "pending") None;
     Hooks.Printed 1%nat Hooks.SUBMITTED] /\
  Hooks.updates
    (snd (Hooks.close_review_request Hooks.sample_api "https://rb" "hook" "pw"
            2%nat "Pushed"))
  = [] /\
  forall review_request sent,
    In (review_request, sent)
      (Hooks.updates
         (snd (Hooks.close_review_request Hooks.sample_api "https://rb"
                 "hook" "pw" 1%nat "Pushed"))) ->
    sent = Some "Pushed".
Proof.
  split; [reflexivity | split; [reflexivity|]].
  intros review_request sent H.
  apply (close_updates_once Hooks.sample_api "https://rb" "hook" "pw" 1%nat
           "Pushed") in H.
  apply H. discriminate.
Defined.

Lemma close_errors_witness :
  fst (Hooks.close_review_request Hooks.sample_api "https://rb" "hook" "pw"
         3%nat "Pushed")
  = inl (Hooks.HookError
           "Error getting review request: Object does not exist") /\
  snd (Hooks.close_review_request Hooks.sample_api "https://rb" "hook" "pw"
         3%nat "Pushed") = [].
Proof.
  split; [reflexivity|].
  apply (proj1 (close_errors Hooks.sample_api "https://rb" "hook" "pw" 3%nat
                  "Pushed")
           "Error getting review request: Object does not exist").
  reflexivity.
Defined.
